(** * QuizAI: the extraction client and the session engine

    A shallow embedding of the TypeScript sources of QuizAI-alpha-1:

    - services/geminiService.ts, function extractMCQsFromText, in its two
      revisions (src/unnamed/part_000): the first strips a Markdown fence and
      keeps three failure messages apart, the second only trims and reports
      every failure with one message;
    - types.ts (src/unnamed/part_001): MCQ, Attempt, QuizState, AppMode;
    - App.tsx in its two revisions (src/unnamed/part_002 and part_003): the
      handlers of the React component, as functions on the component state.

    JavaScript strings are sequences of code units; this development keeps
    to code units below 256, one per character of a Rocq string. Numbers are
    IEEE 754 binary64 values, as the kernel's primitive floats. *)

From Stdlib Require Import ZArith String Ascii List Bool Floats Uint63 Lia.
From stdpp Require Import base option list gmap strings pretty.

Set Warnings "-register-all".

(** ** Strings: the parts of String.prototype the sources call *)

Definition LF : ascii := "010"%char.
Definition DQ : ascii := "034"%char.
Definition nl : string := String LF EmptyString.

(** WhiteSpace and LineTerminator code units below 256: TAB, LF, VT, FF, CR,
    SP and NBSP. *)
Definition is_white_space (c : ascii) : bool :=
  match N_of_ascii c with
  | 9 | 10 | 11 | 12 | 13 | 32 | 160 => true
  | _ => false
  end%N.

Definition is_empty (s : string) : bool :=
  match s with EmptyString => true | String _ _ => false end.

Fixpoint trimStart (s : string) : string :=
  match s with
  | EmptyString => EmptyString
  | String c r => if is_white_space c then trimStart r else s
  end.

Fixpoint trimEnd (s : string) : string :=
  match s with
  | EmptyString => EmptyString
  | String c r =>
      let r' := trimEnd r in
      if is_white_space c && is_empty r' then EmptyString else String c r'
  end.

(** String.prototype.trim *)
Definition trim (s : string) : string := trimEnd (trimStart s).

(** [s.startsWith(p)] *)
Definition startsWith (s p : string) : bool := String.prefix p s.

(** [Some r] when [s] is [p] followed by [r]. *)
Fixpoint strip_prefix (p s : string) : option string :=
  match p, s with
  | EmptyString, _ => Some s
  | String a p', String b s' => if Ascii.eqb a b then strip_prefix p' s' else None
  | String _ _, EmptyString => None
  end.

(** [Some r] when [s] is [r] followed by [p]. *)
Fixpoint strip_suffix (p s : string) : option string :=
  if String.eqb s p then Some EmptyString
  else match s with
       | EmptyString => None
       | String c r => String c <$> strip_suffix p r
       end.

Definition fence : string := "```".

(** [s.replace(/^```(?:json)?\n?/, '')]: the fence at the start, then the
    word json when it follows, then one line feed when it follows. Both
    optional parts are greedy and what comes after them can match the empty
    string, so the first choice of each is the match. *)
Definition strip_opening_fence (s : string) : string :=
  match strip_prefix fence s with
  | None => s
  | Some r =>
      let r1 := default r (strip_prefix "json" r) in
      default r1 (strip_prefix nl r1)
  end.

(** [s.replace(/\n?```$/, '')]: without the m flag the dollar is the end of
    the input, so a match is a suffix: the leftmost one takes the line feed
    when there is one. *)
Definition strip_closing_fence (s : string) : string :=
  match strip_suffix (nl +:+ fence) s with
  | Some r => r
  | None => default s (strip_suffix fence s)
  end.

(** ** Untyped values: what JSON.parse returns *)

Inductive json :=
  | JNull
  | JBool (b : bool)
  | JNum (n : float)
  | JStr (s : string)
  | JArr (l : list json)
  | JObj (o : gmap string json).

(** ToBoolean on a parsed value. *)
Definition truthy (v : json) : bool :=
  match v with
  | JNull => false
  | JBool b => b
  | JNum n => negb (PrimFloat.eqb n 0 || PrimFloat.is_nan n)
  | JStr s => negb (is_empty s)
  | JArr _ | JObj _ => true
  end.

Definition num_of_nat (n : nat) : float :=
  PrimFloat.of_uint63 (Uint63.of_Z (Z.of_nat n)).

Definition single (c : ascii) : json := JStr (String c EmptyString).

(** The own enumerable properties [{...v}] copies: those of an object, the
    indexed elements of an array, the indexed code units of a string, and
    nothing for null, a boolean or a number. *)
Definition spread (v : json) : gmap string json :=
  match v with
  | JObj o => o
  | JArr l => list_to_map (imap (λ i x, (pretty i, x)) l)
  | JStr s => list_to_map (imap (λ i c, (pretty i, single c)) (list_ascii_of_string s))
  | JNull | JBool _ | JNum _ => ∅
  end.

(** [v.k] for a value [v] other than null and a key [k] that no prototype
    defines: own properties only; [None] is undefined. *)
Definition prop (k : string) (v : json) : option json :=
  match v with
  | JObj o => o !! k
  | JArr l => if String.eqb k "length" then Some (JNum (num_of_nat (length l)))
              else spread v !! k
  | JStr s => if String.eqb k "length" then Some (JNum (num_of_nat (String.length s)))
              else spread v !! k
  | JNull | JBool _ | JNum _ => None
  end.

(** ** Exceptions *)

Inductive exn :=
  | Error (message : string)
  | SyntaxError (message : string)
  | TypeError (message : string).

Definition message (e : exn) : string :=
  match e with Error m | SyntaxError m | TypeError m => m end.

Definition instanceof_SyntaxError (e : exn) : bool :=
  match e with SyntaxError _ => true | _ => false end.

(** A computation that returns or throws. *)
Definition result (A : Type) : Type := exn + A.

Definition throw {A} (e : exn) : result A := inl e.

#[global] Instance result_ret : MRet result := λ A x, inr x.
#[global] Instance result_bind : MBind result := λ A B f m,
  match m with inl e => inl e | inr x => f x end.

(** [JSON.parse(s)] with the parser of the environment: the parsed value, or
    a SyntaxError with the parser's message. *)
Definition parse (JSON_parse : string → string + json) (s : string) : result json :=
  match JSON_parse s with
  | inl m => throw (SyntaxError m)
  | inr v => mret v
  end.

(** The message of the TypeError a property read on null raises (the wording
    is the engine's; V8's is used). *)
Definition null_property_message (k : string) : string :=
  "Cannot read properties of null (reading '" +:+ k +:+ "')".

(** [`q-${index}-${Date.now()}`] *)
Definition mcq_id (index : nat) (now : Z) : string :=
  "q-" +:+ pretty index +:+ "-" +:+ pretty now.

(** ** services/geminiService.ts *)

Module Gemini.

(** The two revisions of extractMCQsFromText. *)
Inductive revision := Strict | Augmented.

(** What awaiting [ai.models.generateContent] gives: a rejection, or a
    response whose [text] may be missing ([None] also stands for a missing
    response object). *)
Inductive reply :=
  | Rejected (e : exn)
  | Replied (text : option string).

(** The object the function resolves to. TypeScript calls it an
    ExtractionResult; at run time its parts are whatever was parsed. *)
Record extracted := Extracted { title : json; questions : list json }.

Definition empty_response_message : string := "Gemini returned an empty response.".

Definition format_message (r : revision) : string :=
  match r with
  | Strict => "Gemini response was not in the expected format."
  | Augmented => "Unexpected response format."
  end.

Definition parse_failure_message : string :=
  "Failed to parse Gemini response as JSON. The model may have returned invalid data.".

Definition conversion_failure_message : string :=
  "Failed to convert PDF to MCQs. The document might be too large or the text might be unreadable.".

Definition fallback_title (r : revision) : string :=
  match r with
  | Strict => "Untitled Quiz"
  | Augmented => "QuizAI Generated Quiz"
  end.

(** [response.text.trim()], and in the first revision the fence removal
    guarded by [startsWith]. *)
Definition cleaned (r : revision) (text : string) : string :=
  let cleanedText := trim text in
  match r with
  | Strict =>
      if startsWith cleanedText fence
      then strip_closing_fence (strip_opening_fence cleanedText)
      else cleanedText
  | Augmented => cleanedText
  end.

(** [if (!response || !response.text) throw ...] *)
Definition response_text (b : reply) : result string :=
  match b with
  | Rejected e => throw e
  | Replied None => throw (Error empty_response_message)
  | Replied (Some t) =>
      if is_empty t then throw (Error empty_response_message) else mret t
  end.

(** [if (!data.questions || !Array.isArray(data.questions)) throw ...]; the
    read of [data.questions] itself throws on null. *)
Definition questions_of (r : revision) (data : json) : result (list json) :=
  match data with
  | JNull => throw (TypeError (null_property_message "questions"))
  | _ =>
      match prop "questions" data with
      | Some (JArr l) => mret l
      | _ => throw (Error (format_message r))
      end
  end.

(** [data.title || fallback] *)
Definition title_of (r : revision) (data : json) : json :=
  match prop "title" data with
  | Some t => if truthy t then t else JStr (fallback_title r)
  | None => JStr (fallback_title r)
  end.

(** [{ ...q, id: `q-${index}-${Date.now()}` }] *)
Definition with_id (now : nat → Z) (index : nat) (q : json) : json :=
  JObj (<["id" := JStr (mcq_id index (now index))]> (spread q)).

(** The catch clause of each revision. *)
Definition rethrow (r : revision) (error : exn) : exn :=
  match r with
  | Strict =>
      if instanceof_SyntaxError error then Error parse_failure_message else error
  | Augmented => Error conversion_failure_message
  end.

Section WithEnvironment.

(** JSON.parse: the parsed value, or the message of its SyntaxError. *)
Variable JSON_parse : string → string + json.

(** Date.now() as read while element [index] is mapped. *)
Variable now : nat → Z.

(** The try block from JSON.parse on. *)
Definition decode (r : revision) (cleanedText : string) : result extracted :=
  data ← parse JSON_parse cleanedText;
  qs ← questions_of r data;
  mret (Extracted (title_of r data) (imap (with_id now) qs)).

(** The body of the try block. *)
Definition try_block (r : revision) (b : reply) : result extracted :=
  text ← response_text b;
  decode r (cleaned r text).

(** What the catch clause makes of the outcome of the try block. *)
Definition settle (r : revision) (x : result extracted) : result extracted :=
  match x with
  | inl error => throw (rethrow r error)
  | inr v => mret v
  end.

Definition extractMCQsFromText (r : revision) (b : reply) : result extracted :=
  settle r (try_block r b).

End WithEnvironment.

End Gemini.

(** ** A reader for JSON texts

    An instance of JSON.parse to run the extraction on concrete replies: the
    grammar of ECMA-404, with two limits. An escape [\uXXXX] is read when it
    names a code unit below 256, and a numeral when one rounding gives its
    binary64 value (at most 15 significant digits and a decimal exponent of
    at most 15 in size). Anything else is reported as a syntax error. *)

Module Reader.

Definition is_json_space (c : ascii) : bool :=
  match N_of_ascii c with 9 | 10 | 13 | 32 => true | _ => false end%N.

Fixpoint skip (s : string) : string :=
  match s with
  | String c r => if is_json_space c then skip r else s
  | EmptyString => s
  end.

Definition digit (c : ascii) : option N :=
  let n := N_of_ascii c in
  if (48 <=? n)%N && (n <=? 57)%N then Some (n - 48)%N else None.

Definition hex (c : ascii) : option N :=
  let n := N_of_ascii c in
  if (48 <=? n)%N && (n <=? 57)%N then Some (n - 48)%N
  else if (65 <=? n)%N && (n <=? 70)%N then Some (n - 55)%N
  else if (97 <=? n)%N && (n <=? 102)%N then Some (n - 87)%N
  else None.

(** The digits at the start of [s]: their value, how many, and the rest. *)
Fixpoint digits (s : string) (acc : N) (count : nat) : N * nat * string :=
  match s with
  | String c r =>
      match digit c with
      | Some d => digits r (10 * acc + d)%N (S count)
      | None => (acc, count, s)
      end
  | EmptyString => (acc, count, s)
  end.

Definition escape (c : ascii) : option ascii :=
  match c with
  | "\"%char => Some "\"%char
  | "/"%char => Some "/"%char
  | "b"%char => Some "008"%char
  | "f"%char => Some "012"%char
  | "n"%char => Some "010"%char
  | "r"%char => Some "013"%char
  | "t"%char => Some "009"%char
  | _ => if Ascii.eqb c DQ then Some DQ else None
  end.

(** The characters of a string literal after its opening quote. *)
Fixpoint chars (s : string) : option (string * string) :=
  match s with
  | EmptyString => None
  | String c r =>
      if Ascii.eqb c DQ then Some (EmptyString, r)
      else if (N_of_ascii c <? 32)%N then None
      else if Ascii.eqb c "\"%char then
        match r with
        | String "u"%char (String a (String b (String x (String y r')))) =>
            match hex a, hex b, hex x, hex y with
            | Some 0%N, Some 0%N, Some h, Some l =>
                '(t, rest) ← chars r';
                Some (String (ascii_of_N (16 * h + l)) t, rest)
            | _, _, _, _ => None
            end
        | String e r' =>
            e' ← escape e;
            '(t, rest) ← chars r';
            Some (String e' t, rest)
        | EmptyString => None
        end
      else '(t, rest) ← chars r; Some (String c t, rest)
  end.

Definition pow10 (k : nat) : float :=
  PrimFloat.of_uint63 (Uint63.of_Z (10 ^ Z.of_nat k)).

(** The binary64 value of [mantissa * 10^exponent] when one rounding gives it. *)
Definition decimal (negative : bool) (mantissa : N) (exponent : Z) : option float :=
  if (mantissa <? 10 ^ 15)%N && (Z.abs exponent <=? 15)%Z then
    let m := PrimFloat.of_uint63 (Uint63.of_Z (Z.of_N mantissa)) in
    let x := if (0 <=? exponent)%Z
             then PrimFloat.mul m (pow10 (Z.to_nat exponent))
             else PrimFloat.div m (pow10 (Z.to_nat (- exponent))) in
    Some (if negative then PrimFloat.opp x else x)
  else None.

Definition exponent_part (s : string) : option (Z * string) :=
  match s with
  | String c r =>
      if Ascii.eqb c "e"%char || Ascii.eqb c "E"%char then
        let '(sign, r1) :=
          match r with
          | String "-"%char r' => ((-1)%Z, r')
          | String "+"%char r' => (1%Z, r')
          | _ => (1%Z, r)
          end in
        let '(e, count, rest) := digits r1 0%N 0 in
        if Nat.eqb count 0 then None else Some ((sign * Z.of_N e)%Z, rest)
      else Some (0%Z, s)
  | EmptyString => Some (0%Z, s)
  end.

Definition fraction_part (s : string) : option (N * nat * string) :=
  match s with
  | String "."%char r =>
      let '(f, count, rest) := digits r 0%N 0 in
      if Nat.eqb count 0 then None else Some (f, count, rest)
  | _ => Some (0%N, 0, s)
  end.

Definition number (s : string) : option (float * string) :=
  let '(negative, s1) :=
    match s with String "-"%char r => (true, r) | _ => (false, s) end in
  let '(i, count, s2) := digits s1 0%N 0 in
  let leading_zero := match s1 with String "0"%char _ => true | _ => false end in
  if Nat.eqb count 0 || (leading_zero && negb (Nat.eqb count 1)) then None
  else
    '(f, places, s3) ← fraction_part s2;
    '(e, rest) ← exponent_part s3;
    x ← decimal negative (i * 10 ^ N.of_nat places + f)%N (e - Z.of_nat places)%Z;
    Some (x, rest).

Definition literal (word : string) (v : json) (s : string) : option (json * string) :=
  rest ← strip_prefix word s; Some (v, rest).

Fixpoint value (fuel : nat) (s : string) : option (json * string) :=
  match fuel with
  | 0 => None
  | S fuel =>
      match skip s with
      | String "{"%char r =>
          match skip r with
          | String "}"%char rest => Some (JObj ∅, rest)
          | r1 => members fuel r1 ∅
          end
      | String "["%char r =>
          match skip r with
          | String "]"%char rest => Some (JArr [], rest)
          | r1 => elements fuel r1 []
          end
      | String "t"%char _ as w => literal "true" (JBool true) w
      | String "f"%char _ as w => literal "false" (JBool false) w
      | String "n"%char _ as w => literal "null" JNull w
      | String c r as w =>
          if Ascii.eqb c DQ then '(t, rest) ← chars r; Some (JStr t, rest)
          else '(x, rest) ← number w; Some (JNum x, rest)
      | EmptyString => None
      end
  end
with elements (fuel : nat) (s : string) (acc : list json) : option (json * string) :=
  match fuel with
  | 0 => None
  | S fuel =>
      '(v, r) ← value fuel s;
      match skip r with
      | String ","%char r' => elements fuel r' (v :: acc)
      | String "]"%char rest => Some (JArr (rev (v :: acc)), rest)
      | _ => None
      end
  end
with members (fuel : nat) (s : string) (acc : gmap string json) : option (json * string) :=
  match fuel with
  | 0 => None
  | S fuel =>
      match skip s with
      | String c r =>
          if Ascii.eqb c DQ then
            '(k, r1) ← chars r;
            match skip r1 with
            | String ":"%char r2 =>
                '(v, r3) ← value fuel r2;
                match skip r3 with
                | String ","%char r' => members fuel r' (<[k := v]> acc)
                | String "}"%char rest => Some (JObj (<[k := v]> acc), rest)
                | _ => None
                end
            | _ => None
            end
          else None
      | EmptyString => None
      end
  end.

Definition syntax_message : string := "Unexpected token or end of JSON input".

Definition JSON_parse (s : string) : string + json :=
  match value (2 * String.length s + 2) s with
  | Some (v, rest) => if is_empty (skip rest) then inr v else inl syntax_message
  | None => inl syntax_message
  end.

(** JSON texts are written here with an apostrophe for each quotation mark. *)
Fixpoint dq (s : string) : string :=
  match s with
  | EmptyString => EmptyString
  | String c r => String (if Ascii.eqb c "'"%char then DQ else c) (dq r)
  end.

End Reader.

(** The reply of the fenced one-question scenario. *)
Definition scenario_body : string :=
  Reader.dq "{'title':'T','questions':[{'question':'Q1','options':['A','B','C','D'],'correctAnswer':'B','explanation':'E','pageNumber':1,'confidence':0.9}]}".

Definition scenario_reply : string :=
  "```json" +:+ nl +:+ scenario_body +:+ nl +:+ "```".

(** ** types.ts *)

Module MCQ.
Record t := mk {
  id : string;
  question : string;
  options : list string;
  correctAnswer : string;
  explanation : string;
  pageNumber : float;
  confidence : float }.
End MCQ.

(** Partial<MCQ>: each field present or not. *)
Module Partial.
Record t := mk {
  id : option string;
  question : option string;
  options : option (list string);
  correctAnswer : option string;
  explanation : option string;
  pageNumber : option float;
  confidence : option float }.
Definition empty : t := mk None None None None None None None.
End Partial.

Module Attempt.
Record t := mk { id : string; timestamp : Z; score : nat; total : nat }.
End Attempt.

(** The optional field quizName of QuizState is never written or read. *)
Module QuizState.
Record t := mk {
  questions : list MCQ.t;
  currentQuestionIndex : Z;
  userAnswers : gmap string string;
  isFinished : bool;
  isReviewMode : bool }.
Definition fresh (qs : list MCQ.t) : t := mk qs 0 ∅ false false.
End QuizState.

Inductive AppMode := UPLOAD | EXTRACTING | QUIZ | RESULTS | ADMIN | PROGRESS.

(** ExtractionResult as App.tsx reads it. *)
Module ExtractionResult.
Record t := mk { title : string; questions : list MCQ.t }.
End ExtractionResult.

(** ** App.tsx *)

(** The two revisions of the component: the one whose storage key is
    quiz-ai-local-v3 (src/unnamed/part_002) and the one whose key is
    quiz-ai-storage (src/unnamed/part_003). *)
Inductive app := LocalV3 | Plain.

(** The useState cells of the component that the handlers below read or
    write. darkMode, sidebarOpen, isEditingName, isDragging and lastSaved
    only drive the presentation and are left out, and so are the effects
    that mirror the cells into localStorage. *)
Record AppState := mkApp {
  mode : AppMode;
  questions : list MCQ.t;
  quizName : string;
  quizState : QuizState.t;
  attempts : list Attempt.t;
  pendingAnswer : option string;
  error : option string;
  loadingStep : string;
  extractionProgress : Z;
  completedSteps : list string }.

Definition default_name (a : app) : string :=
  match a with LocalV3 => "Untitled Quiz" | Plain => "New Quiz" end.

Definition initial (a : app) (history : list Attempt.t) : AppState :=
  mkApp UPLOAD [] (default_name a) (QuizState.fresh []) history None None "" 0 [].

Definition setMode (m : AppMode) (s : AppState) : AppState :=
  mkApp m (questions s) (quizName s) (quizState s) (attempts s) (pendingAnswer s)
    (error s) (loadingStep s) (extractionProgress s) (completedSteps s).

Definition setQuestions (qs : list MCQ.t) (s : AppState) : AppState :=
  mkApp (mode s) qs (quizName s) (quizState s) (attempts s) (pendingAnswer s)
    (error s) (loadingStep s) (extractionProgress s) (completedSteps s).

Definition setQuizName (n : string) (s : AppState) : AppState :=
  mkApp (mode s) (questions s) n (quizState s) (attempts s) (pendingAnswer s)
    (error s) (loadingStep s) (extractionProgress s) (completedSteps s).

(** setQuizState with an updater: [setQuizState(prev => f(prev))]. *)
Definition setQuizState (f : QuizState.t → QuizState.t) (s : AppState) : AppState :=
  mkApp (mode s) (questions s) (quizName s) (f (quizState s)) (attempts s)
    (pendingAnswer s) (error s) (loadingStep s) (extractionProgress s)
    (completedSteps s).

Definition setAttempts (f : list Attempt.t → list Attempt.t) (s : AppState) : AppState :=
  mkApp (mode s) (questions s) (quizName s) (quizState s) (f (attempts s))
    (pendingAnswer s) (error s) (loadingStep s) (extractionProgress s)
    (completedSteps s).

Definition setPendingAnswer (p : option string) (s : AppState) : AppState :=
  mkApp (mode s) (questions s) (quizName s) (quizState s) (attempts s) p
    (error s) (loadingStep s) (extractionProgress s) (completedSteps s).

Definition setError (e : option string) (s : AppState) : AppState :=
  mkApp (mode s) (questions s) (quizName s) (quizState s) (attempts s)
    (pendingAnswer s) e (loadingStep s) (extractionProgress s) (completedSteps s).

Definition setLoadingStep (l : string) (s : AppState) : AppState :=
  mkApp (mode s) (questions s) (quizName s) (quizState s) (attempts s)
    (pendingAnswer s) (error s) l (extractionProgress s) (completedSteps s).

Definition setExtractionProgress (p : Z) (s : AppState) : AppState :=
  mkApp (mode s) (questions s) (quizName s) (quizState s) (attempts s)
    (pendingAnswer s) (error s) (loadingStep s) p (completedSteps s).

Definition setCompletedSteps (c : list string) (s : AppState) : AppState :=
  mkApp (mode s) (questions s) (quizName s) (quizState s) (attempts s)
    (pendingAnswer s) (error s) (loadingStep s) (extractionProgress s) c.

(** The updaters the handlers pass to setQuizState. *)
Definition with_index (i : Z) (q : QuizState.t) : QuizState.t :=
  QuizState.mk (QuizState.questions q) i (QuizState.userAnswers q)
    (QuizState.isFinished q) (QuizState.isReviewMode q).

Definition with_answers (m : gmap string string) (q : QuizState.t) : QuizState.t :=
  QuizState.mk (QuizState.questions q) (QuizState.currentQuestionIndex q) m
    (QuizState.isFinished q) (QuizState.isReviewMode q).

Definition with_finished (b : bool) (q : QuizState.t) : QuizState.t :=
  QuizState.mk (QuizState.questions q) (QuizState.currentQuestionIndex q)
    (QuizState.userAnswers q) b (QuizState.isReviewMode q).

Definition with_questions (qs : list MCQ.t) (q : QuizState.t) : QuizState.t :=
  QuizState.mk qs (QuizState.currentQuestionIndex q) (QuizState.userAnswers q)
    (QuizState.isFinished q) (QuizState.isReviewMode q).

(** [qs[i]]: undefined outside the array. *)
Definition at_index (qs : list MCQ.t) (i : Z) : option MCQ.t :=
  if (0 <=? i)%Z then qs !! Z.to_nat i else None.

(** [const currentQuestion = quizState.questions[quizState.currentQuestionIndex]] *)
Definition currentQuestion (s : AppState) : option MCQ.t :=
  at_index (QuizState.questions (quizState s))
    (QuizState.currentQuestionIndex (quizState s)).

(** [!!x] for a string that may be undefined. *)
Definition set_and_nonempty (x : option string) : bool :=
  match x with Some t => negb (is_empty t) | None => false end.

(** [currentQuestion ? !!quizState.userAnswers[currentQuestion.id] : false] *)
Definition hasAnsweredCurrent (s : AppState) : bool :=
  match currentQuestion s with
  | Some q => set_and_nonempty (QuizState.userAnswers (quizState s) !! MCQ.id q)
  | None => false
  end.

Definition undefined_property_message (k : string) : string :=
  "Cannot read properties of undefined (reading '" +:+ k +:+ "')".

(** handleConfirmAnswer. The read [currentQ.id] inside the updater throws
    when the index names no question. *)
Definition handleConfirmAnswer (s : AppState) : result AppState :=
  match pendingAnswer s with
  | Some answer =>
      if is_empty answer then mret s
      else
        match currentQuestion s with
        | Some currentQ =>
            mret (setPendingAnswer None
              (setQuizState (λ prev,
                 with_answers (<[MCQ.id currentQ := answer]> (QuizState.userAnswers prev)) prev)
                 s))
        | None => throw (TypeError (undefined_property_message "id"))
        end
  | None => mret s
  end.

(** jumpToQuestion, and the inline updater of the second revision, which
    leaves the pending answer as it is. *)
Definition jumpToQuestion (a : app) (index : Z) (s : AppState) : AppState :=
  match a with
  | LocalV3 => setPendingAnswer None (setQuizState (with_index index) s)
  | Plain => setQuizState (with_index index) s
  end.

(** [quizState.userAnswers[q.id] === q.correctAnswer] *)
Definition answered_correctly (answers : gmap string string) (q : MCQ.t) : bool :=
  bool_decide (answers !! MCQ.id q = Some (MCQ.correctAnswer q)).

Definition correctCount (q : QuizState.t) : nat :=
  length (List.filter (answered_correctly (QuizState.userAnswers q)) (QuizState.questions q)).

(** finishQuiz; [now_id] and [now_stamp] are its two readings of Date.now(). *)
Definition finishQuiz (now_id now_stamp : Z) (s : AppState) : AppState :=
  let newAttempt :=
    Attempt.mk ("attempt-" +:+ pretty now_id) now_stamp
      (correctCount (quizState s)) (length (QuizState.questions (quizState s))) in
  setQuizState (with_finished true)
    (setMode RESULTS (setAttempts (λ prev, newAttempt :: prev) s)).

Definition goToNext (now_id now_stamp : Z) (s : AppState) : AppState :=
  let q := quizState s in
  if (QuizState.currentQuestionIndex q <? Z.of_nat (length (QuizState.questions q)) - 1)%Z
  then setPendingAnswer None
         (setQuizState (λ prev, with_index (QuizState.currentQuestionIndex prev + 1) prev) s)
  else finishQuiz now_id now_stamp s.

(** goToPrev, and the inline updater of the second revision. *)
Definition goToPrev (a : app) (s : AppState) : AppState :=
  match a with
  | LocalV3 =>
      if (0 <? QuizState.currentQuestionIndex (quizState s))%Z
      then setPendingAnswer None
             (setQuizState (λ prev, with_index (QuizState.currentQuestionIndex prev - 1) prev) s)
      else s
  | Plain =>
      setQuizState (λ prev, with_index (Z.max 0 (QuizState.currentQuestionIndex prev - 1)) prev) s
  end.

(** The argument of resetQuiz. The second revision declares only the first
    two values; given the third it runs neither branch. A missing argument
    behaves as [RetakeAll]. *)
Inductive retake := RetakeAll | RetakeIncorrect | RetakeLowConfidence.

Definition not_answered_correctly (answers : gmap string string) (q : MCQ.t) : bool :=
  negb (answered_correctly answers q).

(** [q.confidence < 0.8]; the literal is the binary64 value nearest to 0.8. *)
Definition low_confidence (q : MCQ.t) : bool :=
  PrimFloat.ltb (MCQ.confidence q) 0x1.999999999999ap-1.

Definition retake_questions (a : app) (f : retake) (s : AppState) : list MCQ.t :=
  match f, a with
  | RetakeIncorrect, _ =>
      List.filter (not_answered_correctly (QuizState.userAnswers (quizState s))) (questions s)
  | RetakeLowConfidence, LocalV3 => List.filter low_confidence (questions s)
  | _, _ => questions s
  end.

Definition no_match_message : string := "No questions match the filter.".

Definition resetQuiz (a : app) (f : retake) (s : AppState) : AppState :=
  let newQuestions := retake_questions a f s in
  if Nat.eqb (length newQuestions) 0 then
    match a with
    | LocalV3 => setError (Some no_match_message) s
    | Plain => s
    end
  else setMode QUIZ (setPendingAnswer None (setQuizState (λ _, QuizState.fresh newQuestions) s)).

(** [{ ...q, ...updated }] *)
Definition merge (q : MCQ.t) (updated : Partial.t) : MCQ.t :=
  MCQ.mk (default (MCQ.id q) (Partial.id updated))
    (default (MCQ.question q) (Partial.question updated))
    (default (MCQ.options q) (Partial.options updated))
    (default (MCQ.correctAnswer q) (Partial.correctAnswer updated))
    (default (MCQ.explanation q) (Partial.explanation updated))
    (default (MCQ.pageNumber q) (Partial.pageNumber updated))
    (default (MCQ.confidence q) (Partial.confidence updated)).

Definition merge_matching (id : string) (updated : Partial.t) (q : MCQ.t) : MCQ.t :=
  if String.eqb (MCQ.id q) id then merge q updated else q.

Definition saveEditedQuestion (id : string) (updated : Partial.t) (s : AppState) : AppState :=
  setQuizState (λ prev,
      with_questions (map (merge_matching id updated) (QuizState.questions prev)) prev)
    (setQuestions (map (merge_matching id updated) (questions s)) s).

(** clearAllData; [confirmed] is what the confirm dialog returned. *)
Definition clearAllData (a : app) (confirmed : bool) (s : AppState) : AppState :=
  if confirmed then
    setMode UPLOAD
      (setQuizState (λ _, QuizState.fresh [])
        (setQuizName (default_name a)
          (setAttempts (λ _, []) (setQuestions [] s))))
  else s.

(** *** handleFileUpload *)

(** What the environment hands to one run of handleFileUpload: the MIME type
    of the chosen file when there is one, what extractTextFromPdf settles
    to, and what extractMCQsFromText settles to. *)
Record upload := Upload {
  file_type : option string;
  pdf_text : result string;
  extraction : result ExtractionResult.t }.

Definition is_digit (c : ascii) : bool :=
  (48 <=? N_of_ascii c)%N && (N_of_ascii c <=? 57)%N.

Fixpoint drop_digits (s : string) : string :=
  match s with
  | String c r => if is_digit c then drop_digits r else s
  | EmptyString => s
  end.

(** What follows a match of [--- PAGE \d+ ---] at the start of [s]. *)
Definition after_marker (s : string) : option string :=
  r ← strip_prefix "--- PAGE " s;
  match r with
  | String c _ => if is_digit c then strip_prefix " ---" (drop_digits r) else None
  | EmptyString => None
  end.

Fixpoint remove_markers (fuel : nat) (s : string) : string :=
  match fuel with
  | 0 => s
  | S fuel =>
      match after_marker s with
      | Some rest => remove_markers fuel rest
      | None =>
          match s with
          | EmptyString => EmptyString
          | String c r => String c (remove_markers fuel r)
          end
      end
  end.

(** [text.replace(/--- PAGE \d+ ---/g, '')] *)
Definition without_page_markers (text : string) : string :=
  remove_markers (String.length text) text.

(** The guard on the text read from the document. *)
Definition unreadable (a : app) (text : string) : bool :=
  match a with
  | LocalV3 =>
      is_empty text || (String.length (trim (without_page_markers text)) <? 20)%nat
  | Plain => is_empty text || (String.length text <? 50)%nat
  end.

Definition invalid_file_message (a : app) : string :=
  match a with
  | LocalV3 => "Please upload a valid PDF file."
  | Plain => "Please provide a valid PDF file."
  end.

Definition unreadable_message (a : app) : string :=
  match a with
  | LocalV3 => "No readable text found in the PDF."
  | Plain => "Could not read enough text from this PDF."
  end.

Definition no_questions_message (a : app) : string :=
  match a with
  | LocalV3 => "No questions identified."
  | Plain => "No study material could be processed."
  end.

Definition failure_fallback (a : app) : string :=
  match a with
  | LocalV3 => "Extraction failed."
  | Plain => "Error converting PDF."
  end.

(** A handler body: it reads and writes the cells and may throw; the writes
    made before a throw stay. *)
Definition action (A : Type) : Type := AppState → result A * AppState.

#[global] Instance action_ret : MRet action := λ A x s, (inr x, s).
#[global] Instance action_bind : MBind action := λ A B f m s,
  match m s with
  | (inl e, s') => (inl e, s')
  | (inr x, s') => f x s'
  end.

Definition call (f : AppState → AppState) : action unit := λ s, (inr tt, f s).
Definition await {A} (r : result A) : action A := λ s, (r, s).
Definition raise {A} (e : exn) : action A := λ s, (inl e, s).
Definition when_ (b : bool) (m : action unit) : action unit :=
  if b then m else mret tt.

Definition try_catch (body : action unit) (handler : exn → action unit) : action unit :=
  λ s, match body s with
       | (inl e, s') => handler e s'
       | (inr x, s') => (inr x, s')
       end.

(** [err.message || fallback] *)
Definition message_or (fallback : string) (e : exn) : string :=
  if is_empty (message e) then fallback else message e.

(** The try block of handleFileUpload. The two timer waits only delay the
    writes that follow them and are left out. *)
Definition upload_try (a : app) (u : upload) : action unit :=
  call (setError None);;
  call (setCompletedSteps []);;
  call (setExtractionProgress 5);;
  call (setMode EXTRACTING);;
  call (setLoadingStep match a with
                       | LocalV3 => "Initializing parser..."
                       | Plain => "Initializing PDF parser..."
                       end);;
  text ← await (pdf_text u);
  when_ (unreadable a text) (raise (Error (unreadable_message a)));;
  call (setCompletedSteps ["read"]);;
  call (setExtractionProgress 30);;
  when_ match a with LocalV3 => false | Plain => true end
    (call (setLoadingStep "Consulting Gemini AI..."));;
  result ← await (extraction u);
  when_ (Nat.eqb (length (ExtractionResult.questions result)) 0)
    (raise (Error (no_questions_message a)));;
  call (setCompletedSteps ["read"; "analyze"]);;
  call (setExtractionProgress 70);;
  call (setLoadingStep match a with
                       | LocalV3 => "Verifying data..."
                       | Plain => "Structuring questions..."
                       end);;
  call (setCompletedSteps ["read"; "analyze"; "structure"]);;
  call (setExtractionProgress match a with LocalV3 => 90 | Plain => 95 end);;
  call (setQuizName (ExtractionResult.title result));;
  call (setQuestions (ExtractionResult.questions result));;
  when_ match a with LocalV3 => true | Plain => false end
    (call (setAttempts (λ _, [])));;
  call (setQuizState (λ _, QuizState.fresh (ExtractionResult.questions result)));;
  call (setExtractionProgress 100);;
  call (setCompletedSteps ["read"; "analyze"; "structure"; "finalize"]);;
  call (setLoadingStep match a with LocalV3 => "Ready!" | Plain => "Quiz Ready!" end);;
  call (setMode QUIZ).

Definition upload_catch (a : app) (err : exn) : action unit :=
  call (setError (Some (message_or (failure_fallback a) err)));;
  call (setMode UPLOAD).

Definition is_pdf (t : option string) : bool :=
  match t with Some ty => String.eqb ty "application/pdf" | None => false end.

(** handleFileUpload, run to its end: the cells after its last write. The
    handler awaits the two services; no other handler is taken to run in
    between. *)
Definition handleFileUpload (a : app) (u : upload) (s : AppState) : AppState :=
  if is_pdf (file_type u)
  then snd (try_catch (upload_try a u) (upload_catch a) s)
  else setError (Some (invalid_file_message a)) s.

(** *** The controls of the screens

    What the rendered component lets the user do. A control of the quiz
    screen exists only while [currentQuestion] is defined (the screen reads
    [currentQuestion.question] first); which screen is showing is not
    tracked, so every control is taken to be reachable in every mode. *)

(** The onChange handlers of the edit screen: the question text, one option
    (second revision only), the select over the options, the explanation. *)
Inductive edit :=
  | EditQuestion (text : string)
  | EditOption (position : nat) (text : string)
  | EditCorrectAnswer (choice : nat)
  | EditExplanation (text : string).

(** The second argument the handler of [e] passes to saveEditedQuestion for
    the rendered question [q], when the control exists. *)
Definition edit_fields (a : app) (q : MCQ.t) (e : edit) : option Partial.t :=
  match e with
  | EditQuestion text =>
      Some (Partial.mk None (Some text) None None None None None)
  | EditOption position text =>
      match a with
      | LocalV3 => None
      | Plain =>
          if (position <? length (MCQ.options q))%nat
          then Some (Partial.mk None None (Some (<[position := text]> (MCQ.options q)))
                       None None None None)
          else None
      end
  | EditCorrectAnswer choice =>
      value ← MCQ.options q !! choice;
      Some (Partial.mk None None None (Some value) None None None)
  | EditExplanation text =>
      Some (Partial.mk None None None None (Some text) None None)
  end.

(** The user actions. [Retake] carries any argument of resetQuiz, though the
    buttons of both revisions pass only all and incorrect. *)
Inductive event :=
  | ChooseFile (u : upload)
  | SelectOption (position : nat)
  | Confirm
  | Next (now_id now_stamp : Z)
  | Prev
  | Jump (index : nat)
  | Finish (now_id now_stamp : Z)
  | Retake (f : retake)
  | Edit (shown : nat) (e : edit)
  | ClearAll (confirmed : bool)
  | Go (m : AppMode)
  | DismissError
  | Rename (name : string).

(** [pendingAnswer && !hasAnsweredCurrent]: the Confirm button is rendered,
    and the Next button is not. *)
Definition confirm_offered (s : AppState) : bool :=
  set_and_nonempty (pendingAnswer s) && negb (hasAnsweredCurrent s).

Definition on_quiz_screen (s : AppState) (k : MCQ.t → result AppState) : result AppState :=
  match currentQuestion s with
  | Some q => k q
  | None => mret s
  end.

Definition ui (a : app) (e : event) (s : AppState) : result AppState :=
  match e with
  | ChooseFile u => mret (handleFileUpload a u s)
  | SelectOption position =>
      on_quiz_screen s (λ q,
        match MCQ.options q !! position with
        | Some option =>
            if hasAnsweredCurrent s then mret s
            else mret (setPendingAnswer (Some option) s)
        | None => mret s
        end)
  | Confirm =>
      on_quiz_screen s (λ _, if confirm_offered s then handleConfirmAnswer s else mret s)
  | Next now_id now_stamp =>
      on_quiz_screen s (λ _,
        if confirm_offered s then mret s else mret (goToNext now_id now_stamp s))
  | Prev =>
      on_quiz_screen s (λ _,
        if (QuizState.currentQuestionIndex (quizState s) =? 0)%Z then mret s
        else mret (goToPrev a s))
  | Jump index =>
      on_quiz_screen s (λ _,
        if (index <? length (QuizState.questions (quizState s)))%nat
        then mret (jumpToQuestion a (Z.of_nat index) s)
        else mret s)
  | Finish now_id now_stamp =>
      on_quiz_screen s (λ _, mret (finishQuiz now_id now_stamp s))
  | Retake f => mret (resetQuiz a f s)
  | Edit shown e =>
      match questions s !! shown with
      | Some q =>
          match edit_fields a q e with
          | Some updated => mret (saveEditedQuestion (MCQ.id q) updated s)
          | None => mret s
          end
      | None => mret s
      end
  | ClearAll confirmed => mret (clearAllData a confirmed s)
  | Go m => mret (setMode m s)
  | DismissError => mret (setError None s)
  | Rename name =>
      match a with
      | LocalV3 => mret (setQuizName name s)
      | Plain => mret s
      end
  end.

(** A sequence of user actions, stopping at the first throw. *)
Fixpoint run (a : app) (es : list event) (s : AppState) : result AppState :=
  match es with
  | [] => mret s
  | e :: es' => s' ← ui a e s; run a es' s'
  end.

(** The events that can replace the extracted quiz. *)
Definition replaces_quiz (e : event) : bool :=
  match e with
  | ChooseFile _ | ClearAll _ => true
  | _ => false
  end.

(** ** Startup: the reads of localStorage *)

Module Startup.

Definition STORAGE_KEY (a : app) : string :=
  match a with LocalV3 => "quiz-ai-local-v3" | Plain => "quiz-ai-storage" end.

Definition HISTORY_KEY (a : app) : string :=
  match a with LocalV3 => "quiz-ai-history-v1" | Plain => "quiz-ai-history" end.

Definition DARK_MODE_KEY (a : app) : string :=
  match a with LocalV3 => "quiz-dark-mode" | Plain => "quiz-ai-dark-mode" end.

Definition load_failure_label (a : app) : string :=
  match a with
  | LocalV3 => "Failed to load local data"
  | Plain => "Failed to restore state"
  end.

(** What the effect that reads STORAGE_KEY does. [OutsideModel]: the guard
    compares a value other than a number, a boolean, null or undefined with
    zero, which coerces it in ways this development does not follow. *)
Inductive restore :=
  | NothingSaved
  | Unreadable (logged : string)
  | Ignored
  | Restored (questions title currentQuestionIndex userAnswers isFinished : json)
  | OutsideModel.

Record boot := Boot { darkMode : json; attempts : json; quiz : restore }.

(** [x > 0] *)
Definition positive (x : option json) : option bool :=
  match x with
  | None | Some JNull => Some false
  | Some (JBool b) => Some b
  | Some (JNum n) => Some (PrimFloat.ltb 0 n)
  | Some (JStr _) | Some (JArr _) | Some (JObj _) => None
  end.

(** [v?.k] *)
Definition optional_prop (k : string) (v : option json) : option json :=
  match v with
  | None | Some JNull => None
  | Some x => prop k x
  end.

(** [x ?? d] *)
Definition nullish (x : option json) (d : json) : json :=
  match x with
  | None | Some JNull => d
  | Some v => v
  end.

(** [x || d] *)
Definition or_else (x : option json) (d : json) : json :=
  match x with
  | Some v => if truthy v then v else d
  | None => d
  end.

Section WithParser.

Variable JSON_parse : string → string + json.

(** [saved ? JSON.parse(saved) : fallback], as the initializers of darkMode
    and attempts are written: a SyntaxError is not caught. *)
Definition parse_or (fallback : json) (saved : option string) : result json :=
  match saved with
  | Some text => if is_empty text then mret fallback else parse JSON_parse text
  | None => mret fallback
  end.

(** The effect with the try block around JSON.parse. *)
Definition restore_quiz (a : app) (saved : option string) : restore :=
  match saved with
  | None => NothingSaved
  | Some text =>
      if is_empty text then NothingSaved
      else
        match JSON_parse text with
        | inl _ => Unreadable (load_failure_label a)
        | inr parsed =>
            if truthy parsed then
              let qs := prop "questions" parsed in
              if truthy (default JNull qs) then
                match positive (optional_prop "length" qs) with
                | Some true =>
                    let progress := prop "progress" parsed in
                    Restored (default JNull qs)
                      (or_else (prop "title" parsed) (JStr (default_name a)))
                      (nullish (optional_prop "currentQuestionIndex" progress) (JNum 0))
                      (nullish (optional_prop "userAnswers" progress) (JObj ∅))
                      (nullish (optional_prop "isFinished" progress) (JBool false))
                | Some false => Ignored
                | None => OutsideModel
                end
              else Ignored
            else Ignored
        end
  end.

(** The first render and its effects: the initializer of darkMode, the
    initializer of attempts, then the effect that restores the quiz.
    [prefers_dark] is what the media query answers. *)
Definition startup (a : app) (prefers_dark : bool) (storage : gmap string string)
    : result boot :=
  dark ← parse_or (JBool prefers_dark) (storage !! DARK_MODE_KEY a);
  history ← parse_or (JArr []) (storage !! HISTORY_KEY a);
  mret (Boot dark history (restore_quiz a (storage !! STORAGE_KEY a))).

End WithParser.

End Startup.

(** ** Predicates of the statements *)

Fixpoint all_white (s : string) : bool :=
  match s with
  | EmptyString => true
  | String c r => is_white_space c && all_white r
  end.

(** The three failure kinds the specification names, with the message the
    first revision of extractMCQsFromText gives each. *)
Inductive failure := EmptyResponse | MalformedOutput | SchemaViolation.

Definition failure_message (f : failure) : string :=
  match f with
  | EmptyResponse => Gemini.empty_response_message
  | MalformedOutput => Gemini.parse_failure_message
  | SchemaViolation => Gemini.format_message Gemini.Strict
  end.

Fixpoint dash_free (s : string) : bool :=
  match s with
  | EmptyString => true
  | String c r => negb (Ascii.eqb c "-"%char) && dash_free r
  end.

(** The id property of each extracted record. *)
Definition ids (x : Gemini.extracted) : list (option json) :=
  prop "id" <$> Gemini.questions x.

(** The number of questions whose committed answer is the correct one. *)
Definition matching (answers : gmap string string) (qs : list MCQ.t) : nat :=
  length (filter (λ q, answers !! MCQ.id q = Some (MCQ.correctAnswer q)) qs).

(** Sample data: question [n] of an extraction at clock reading 1700000000000. *)
Definition sample_question (n : nat) (answer : string) (confidence : float) : MCQ.t :=
  MCQ.mk (mcq_id n 1700000000000) ("Question " +:+ pretty n) ["A"; "B"; "C"; "D"]
    answer "Explanation not found in PDF" 1 confidence.

Definition five_questions : list MCQ.t :=
  [ sample_question 0 "A" 0.5; sample_question 1 "B" 0.75; sample_question 2 "C" 1;
    sample_question 3 "D" 0.875; sample_question 4 "A" 0.25 ].

(** Questions 1 and 3 answered correctly, question 2 incorrectly, 4 and 5
    skipped. *)
Definition five_answers : gmap string string :=
  <[mcq_id 0 1700000000000 := "A"]>
    (<[mcq_id 1 1700000000000 := "C"]> (<[mcq_id 2 1700000000000 := "C"]> ∅)).

Definition in_session (qs : list MCQ.t) (index : Z) (answers : gmap string string)
    (pending : option string) (history : list Attempt.t) : AppState :=
  mkApp QUIZ qs "Sample" (QuizState.mk qs index answers false false) history pending
    None "" 0 [].

(** The events that may start a new session: an upload, a retake, the reset
    of everything. *)
Definition recreates_session (e : event) : bool :=
  match e with
  | ChooseFile _ | Retake _ | ClearAll _ => true
  | _ => false
  end.

Definition answers (s : AppState) : gmap string string :=
  QuizState.userAnswers (quizState s).

(** Every committed answer is a non-empty text. *)
Definition answers_nonempty (s : AppState) : Prop :=
  ∀ k v, answers s !! k = Some v → v ≠ EmptyString.

(** The result an upload installs, when the file is a PDF, its text passes
    the guard and the extraction resolves to at least one question. *)
Definition upload_result (a : app) (u : upload) : option ExtractionResult.t :=
  if is_pdf (file_type u) then
    match pdf_text u, extraction u with
    | inr text, inr r =>
        if unreadable a text || Nat.eqb (length (ExtractionResult.questions r)) 0
        then None else Some r
    | _, _ => None
    end
  else None.

(** The action [e], taken in the state [s], starts a new session: an upload
    that installs a quiz, a retake that selects at least one question, the
    confirmed reset of everything. *)
Definition starts_session (a : app) (e : event) (s : AppState) : bool :=
  match e with
  | ChooseFile u => match upload_result a u with Some _ => true | None => false end
  | Retake f => negb (Nat.eqb (length (retake_questions a f s)) 0)
  | ClearAll confirmed => confirmed
  | _ => false
  end.

(** No action of the sequence [es], taken in turn from [s], starts a new
    session. *)
Fixpoint same_session (a : app) (es : list event) (s : AppState) : bool :=
  match es with
  | [] => true
  | e :: es' =>
      negb (starts_session a e s) &&
      match ui a e s with
      | inr s' => same_session a es' s'
      | inl _ => true
      end
  end.

(** The record is unanswered, or its committed answer differs from its
    correct answer. *)
Definition unanswered_or_wrong (committed : gmap string string) (q : MCQ.t) : bool :=
  match committed !! MCQ.id q with
  | None => true
  | Some v => negb (String.eqb v (MCQ.correctAnswer q))
  end.

(** A finished session over the five sample questions in which every
    question was answered correctly. *)
Definition all_correct : gmap string string :=
  list_to_map ((λ q, (MCQ.id q, MCQ.correctAnswer q)) <$> five_questions).

Definition after_perfect_quiz : AppState :=
  mkApp RESULTS five_questions "Sample"
    (QuizState.mk five_questions 4 all_correct true false)
    [Attempt.mk "attempt-1700000000500" 1700000000501 5 5] None None "" 0 [].

Definition sample_upload : upload :=
  Upload (Some "application/pdf")
    (inr ("--- PAGE 1 ---" +:+ nl +:+
          "1. Which letter comes first? A) A B) B C) C D) D. Answer: A, as the alphabet starts with it."))
    (inr (ExtractionResult.mk "Letters" [sample_question 0 "A" 1])).

(** A file that is no PDF: the handler stops at its first check. *)
Definition picture_upload : upload :=
  Upload (Some "image/png") (inr "") (inr (ExtractionResult.mk "Letters" [sample_question 0 "A" 1])).

(** The invariant of a question record: its correct answer is the sentinel
    or one of its options. *)
Definition answer_sentinel : string := "Answer not found in PDF".

Definition answer_in_options (q : MCQ.t) : Prop :=
  MCQ.correctAnswer q = answer_sentinel ∨ MCQ.correctAnswer q ∈ MCQ.options q.

#[global] Instance answer_in_options_dec (q : MCQ.t) : Decision (answer_in_options q).
Proof. unfold answer_in_options. apply _. Defined.


(** The questions of the active session. *)
Definition view (s : AppState) : list MCQ.t := QuizState.questions (quizState s).


(** A reply with two records, the first of which brings an id of its own. *)
Definition two_question_reply : string :=
  Reader.dq "{'title':'V','questions':[{'id':'mine','question':'Q1','options':['A','B','C','D'],'correctAnswer':'B','explanation':'E','pageNumber':1,'confidence':0.9},{'question':'Q2','options':['A','B','C','D'],'correctAnswer':'C','explanation':'E','pageNumber':2,'confidence':0.5}]}".

(** Another reply, for a second call. *)
Definition other_reply : string :=
  Reader.dq "{'title':'U','questions':[{'question':'Q9','options':['1','2','3','4'],'correctAnswer':'2','explanation':'F','pageNumber':7,'confidence':0.5}]}".


(** * Properties *)

(** ** Trimming and the fence *)

Lemma append_cons (c : ascii) (x y : string) : String c x +:+ y = String c (x +:+ y).
Proof. reflexivity. Qed.

Lemma append_nil (y : string) : EmptyString +:+ y = y.
Proof. reflexivity. Qed.

Lemma append_assoc3 (x y z : string) : (x +:+ y) +:+ z = x +:+ (y +:+ z).
Proof.
  induction x as [|c x IH]; [done|].
  by rewrite !append_cons, IH.
Qed.

Lemma length_append (x y : string) :
  String.length (x +:+ y) = String.length x + String.length y.
Proof.
  induction x as [|c x IH]; [done|].
  rewrite append_cons. simpl. by rewrite IH.
Qed.

Lemma trimStart_white (ws s : string) :
  all_white ws = true → trimStart (ws +:+ s) = trimStart s.
Proof.
  induction ws as [|c ws IH]; [done|].
  rewrite append_cons. simpl. intros [Hc Hws]%andb_true_iff. rewrite Hc. auto.
Qed.

Lemma trimEnd_white (ws : string) : all_white ws = true → trimEnd ws = EmptyString.
Proof.
  induction ws as [|c ws IH]; simpl; [done|].
  intros [Hc Hws]%andb_true_iff. by rewrite (IH Hws), Hc.
Qed.

Lemma trimEnd_app_white (x ws : string) :
  all_white ws = true → trimEnd (x +:+ ws) = trimEnd x.
Proof.
  intros Hws. induction x as [|c x IH].
  - by apply trimEnd_white.
  - rewrite append_cons. simpl. by rewrite IH.
Qed.

Lemma trimEnd_keep (x y : string) :
  trimEnd y = y → y ≠ EmptyString → trimEnd (x +:+ y) = x +:+ y.
Proof.
  intros Hy Hne. induction x as [|c x IH]; [done|].
  rewrite append_cons. simpl. rewrite IH.
  destruct x; [|by rewrite append_cons, andb_false_r].
  rewrite append_nil. destruct y; [done|]. by rewrite andb_false_r.
Qed.

Lemma strip_suffix_app (p b : string) : strip_suffix p (b +:+ p) = Some b.
Proof.
  induction b as [|c b IH].
  - rewrite append_nil. destruct p; simpl; [done|].
    by rewrite Ascii.eqb_refl, String.eqb_refl.
  - rewrite append_cons. cbn [strip_suffix].
    destruct (String.eqb_spec (String c (b +:+ p)) p) as [E|_].
    + apply (f_equal String.length) in E. simpl in E. rewrite length_append in E. lia.
    + by rewrite IH.
Qed.

(** The text between a fence line and the closing fence is what the first
    revision hands to JSON.parse, whatever blank space surrounds the reply;
    the opening fence may carry the word json. *)
Lemma cleaned_fenced (tag ws1 ws2 body : string) :
  tag = "json" ∨ tag = EmptyString →
  all_white ws1 = true → all_white ws2 = true →
  Gemini.cleaned Gemini.Strict
    (ws1 +:+ fence +:+ tag +:+ nl +:+ body +:+ nl +:+ fence +:+ ws2) = body.
Proof.
  intros Htag Hws1 Hws2. unfold Gemini.cleaned, trim.
  rewrite trimStart_white by done.
  assert (fence +:+ tag +:+ nl +:+ body +:+ nl +:+ fence +:+ ws2
          = (fence +:+ tag +:+ nl +:+ body +:+ nl +:+ fence) +:+ ws2) as ->.
  { by rewrite !append_assoc3. }
  assert (∀ x, trimStart (fence +:+ x) = fence +:+ x) as Hhead by done.
  rewrite append_assoc3, Hhead, <-append_assoc3.
  rewrite trimEnd_app_white by done.
  assert (fence +:+ tag +:+ nl +:+ body +:+ nl +:+ fence
          = (fence +:+ tag +:+ nl +:+ body +:+ nl) +:+ fence) as ->.
  { by rewrite !append_assoc3. }
  rewrite trimEnd_keep by done.
  rewrite !append_assoc3.
  assert (startsWith (fence +:+ tag +:+ nl +:+ body +:+ nl +:+ fence) fence = true) as ->.
  { unfold startsWith, fence. rewrite !append_cons. simpl. by destruct (_ +:+ _). }
  assert (strip_opening_fence (fence +:+ tag +:+ nl +:+ body +:+ nl +:+ fence)
          = body +:+ nl +:+ fence) as ->.
  { destruct Htag as [-> | ->]; done. }
  unfold strip_closing_fence.
  by rewrite <-(append_assoc3 body nl fence), (append_assoc3 body), strip_suffix_app.
Qed.

(** ** The ids of extracted records *)

Lemma dash_free_pretty_N_go (x : N) (s : string) :
  dash_free s = true → dash_free (pretty_N_go x s) = true.
Proof.
  revert s. induction (N.lt_wf_0 x) as [x _ IH]; intros s Hs.
  destruct (decide (x = 0)%N) as [->|Hx]; [done|].
  rewrite pretty_N_go_step by lia. apply IH.
  - apply N.div_lt; lia.
  - simpl. rewrite Hs. unfold pretty_N_char. by repeat case_match.
Qed.

Lemma dash_free_pretty_nat (n : nat) : dash_free (pretty n) = true.
Proof.
  unfold pretty, pretty_nat, pretty, pretty_N. case_decide; [done|].
  by apply dash_free_pretty_N_go.
Qed.

(** A dash-free text followed by a dash is read back in one way only. *)
Lemma dash_split (a c b d : string) :
  dash_free a = true → dash_free c = true →
  a +:+ String "-" b = c +:+ String "-" d → a = c ∧ b = d.
Proof.
  revert c. induction a as [|x a IH]; intros [|y c] Ha Hc E;
    rewrite ?append_cons, ?append_nil in E; simplify_eq/=; try done.
  apply andb_true_iff in Ha as [_ Ha]. apply andb_true_iff in Hc as [_ Hc].
  destruct (IH c Ha Hc) as [-> ->]; done.
Qed.

Lemma mcq_id_inj (i j : nat) (t u : Z) : mcq_id i t = mcq_id j u → i = j ∧ t = u.
Proof.
  unfold mcq_id. intros E.
  apply (inj (String.append "q-")) in E.
  apply dash_split in E as [Ei Et]; auto using dash_free_pretty_nat.
  split; [by apply (inj pretty)|by apply (inj pretty)].
Qed.

Lemma prop_id_with_id (now : nat → Z) (i : nat) (q : json) :
  prop "id" (Gemini.with_id now i q) = Some (JStr (mcq_id i (now i))).
Proof. unfold Gemini.with_id. simpl. by rewrite lookup_insert_eq. Qed.


Lemma questions_of_inr (r : Gemini.revision) (data : json) (l : list json) :
  Gemini.questions_of r data = inr l ↔
  data ≠ JNull ∧ prop "questions" data = Some (JArr l).
Proof.
  unfold Gemini.questions_of. split.
  - destruct data; try done;
      (destruct (prop "questions" _) as [[]|]; [done..|by intros [= ->]|done|done]).
  - intros [Hnull Hq]. rewrite Hq. by destruct data.
Qed.

Lemma questions_of_inl (r : Gemini.revision) (data : json) (e : exn) :
  Gemini.questions_of r data = inl e →
  (data = JNull ∧ e = TypeError (null_property_message "questions")) ∨
  (data ≠ JNull ∧ (∀ l, prop "questions" data ≠ Some (JArr l)) ∧
   e = Error (Gemini.format_message r)).
Proof.
  unfold Gemini.questions_of.
  destruct data; [intros [= <-]; by left|..];
    (destruct (prop "questions" _) as [[]|]; try done;
     intros [= <-]; right; by split_and!).
Qed.

Section Extraction.

Variable JSON_parse : string → string + json.
Variable now : nat → Z.

(** A successful call: the reply had a text, the cleaned text parsed to a
    value other than null whose questions property is an array, and the
    records are that array's elements with their ids set. *)
Lemma extract_success (r : Gemini.revision) (b : Gemini.reply) (x : Gemini.extracted) :
  Gemini.extractMCQsFromText JSON_parse now r b = inr x →
  ∃ text data l,
    b = Gemini.Replied (Some text) ∧ text ≠ EmptyString ∧
    JSON_parse (Gemini.cleaned r text) = inr data ∧
    data ≠ JNull ∧
    prop "questions" data = Some (JArr l) ∧
    x = Gemini.Extracted (Gemini.title_of r data) (imap (Gemini.with_id now) l).
Proof.
  unfold Gemini.extractMCQsFromText, Gemini.settle, Gemini.try_block.
  destruct b as [e|[text|]]; simpl; try done.
  destruct text as [|c text]; simpl; [done|].
  unfold Gemini.decode, parse.
  destruct (JSON_parse _) as [m|data] eqn:Hparse; simpl; [done|].
  destruct (Gemini.questions_of r data) as [e|l] eqn:Hq; simpl; [done|].
  apply questions_of_inr in Hq as [Hnull Hq].
  intros [= <-]. by eexists _, data, l.
Qed.

(** The id of the record at each position is the one built from the
    position and the clock, whatever the reply held. *)
Lemma extract_id_at (r : Gemini.revision) (b : Gemini.reply) (x : Gemini.extracted)
    (i : nat) (q : json) :
  Gemini.extractMCQsFromText JSON_parse now r b = inr x →
  Gemini.questions x !! i = Some q →
  prop "id" q = Some (JStr (mcq_id i (now i))).
Proof.
  intros (text & data & l & _ & _ & _ & _ & _ & ->)%extract_success. simpl.
  rewrite list_lookup_imap. destruct (l !! i); simpl; [|done].
  intros [= <-]. apply prop_id_with_id.
Qed.

Lemma ids_at (r : Gemini.revision) (b : Gemini.reply) (x : Gemini.extracted)
    (i : nat) (a : option json) :
  Gemini.extractMCQsFromText JSON_parse now r b = inr x →
  ids x !! i = Some a → a = Some (JStr (mcq_id i (now i))).
Proof.
  intros Hx. unfold ids. rewrite list_lookup_fmap.
  destruct (Gemini.questions x !! i) as [q|] eqn:Hq; simpl; [|done].
  intros [= <-]. by eapply extract_id_at.
Qed.

Lemma extract_ids_NoDup (r : Gemini.revision) (b : Gemini.reply) (x : Gemini.extracted) :
  Gemini.extractMCQsFromText JSON_parse now r b = inr x → NoDup (ids x).
Proof.
  intros Hx. apply NoDup_alt. intros i j a Hi Hj.
  apply (ids_at _ _ _ _ _ Hx) in Hi. apply (ids_at _ _ _ _ _ Hx) in Hj.
  assert (mcq_id i (now i) = mcq_id j (now j)) as E by congruence.
  by apply mcq_id_inj in E as [-> _].
Qed.

End Extraction.

(** Two calls whose clocks differ at every position share no id. *)
Lemma extract_ids_disjoint (parse parse' : string → string + json) (now now' : nat → Z)
    (r r' : Gemini.revision) (b b' : Gemini.reply) (x x' : Gemini.extracted) (a : option json) :
  (∀ i, now i ≠ now' i) →
  Gemini.extractMCQsFromText parse now r b = inr x →
  Gemini.extractMCQsFromText parse' now' r' b' = inr x' →
  a ∈ ids x → a ∉ ids x'.
Proof.
  intros Hclock Hx Hx' [i Hi]%list_elem_of_lookup [j Hj]%list_elem_of_lookup.
  apply (ids_at _ _ _ _ _ _ _ Hx) in Hi. apply (ids_at _ _ _ _ _ _ _ Hx') in Hj.
  assert (mcq_id i (now i) = mcq_id j (now' j)) as E by congruence.
  apply mcq_id_inj in E as [-> E]. by eapply Hclock.
Qed.

(** ** Scoring *)

Lemma correctCount_matching (q : QuizState.t) :
  correctCount q = matching (QuizState.userAnswers q) (QuizState.questions q).
Proof.
  unfold correctCount, matching, answered_correctly.
  induction (QuizState.questions q) as [|x l IH]; [done|].
  simpl. rewrite filter_cons. case_bool_decide; case_decide; simpl; congruence.
Qed.

(** C1. finishQuiz puts one new attempt in front of the ledger and leaves
    the earlier attempts as they were; its score is the number of active
    questions whose committed answer equals correctAnswer, its total the
    number of active questions; the session becomes finished; the score
    depends on the questions and the answers only. With five questions, the
    first and third answered correctly, the second incorrectly and the last
    two not answered, the score is 2 and the total 5. *)
Theorem finishQuiz_scores (now_id now_stamp : Z) (s : AppState) :
  let Q := QuizState.questions (quizState s) in
  let A := QuizState.userAnswers (quizState s) in
  let s' := finishQuiz now_id now_stamp s in
  (∃ a, attempts s' = a :: attempts s ∧
        Attempt.score a = matching A Q ∧ Attempt.total a = length Q) ∧
  length (attempts s') = S (length (attempts s)) ∧
  QuizState.isFinished (quizState s') = true ∧
  QuizState.questions (quizState s') = Q ∧
  QuizState.userAnswers (quizState s') = A ∧
  (∀ t1 t2 s2,
     QuizState.questions (quizState s2) = Q →
     QuizState.userAnswers (quizState s2) = A →
     Attempt.score <$> head (attempts (finishQuiz t1 t2 s2)) = Some (matching A Q)) ∧
  (∀ q1 q2 q3 q4 q5 wrong,
     Q = [q1; q2; q3; q4; q5] →
     A !! MCQ.id q1 = Some (MCQ.correctAnswer q1) →
     A !! MCQ.id q2 = Some wrong → wrong ≠ MCQ.correctAnswer q2 →
     A !! MCQ.id q3 = Some (MCQ.correctAnswer q3) →
     A !! MCQ.id q4 = None → A !! MCQ.id q5 = None →
     ∃ a, attempts s' = a :: attempts s ∧ Attempt.score a = 2 ∧ Attempt.total a = 5).
Proof.
  cbv zeta. split_and!.
  - eexists. split; [done|]. simpl. by rewrite correctCount_matching.
  - done.
  - done.
  - done.
  - done.
  - intros t1 t2 s2 HQ HA. simpl. by rewrite correctCount_matching, HQ, HA.
  - intros q1 q2 q3 q4 q5 wrong HQ H1 H2 Hw H3 H4 H5.
    eexists. split; [done|]. simpl. rewrite correctCount_matching, HQ.
    split; [|done]. unfold matching.
    rewrite !filter_cons, filter_nil, H1, H2, H3, H4, H5.
    repeat case_decide; simplify_eq; done.
Qed.

Lemma finishQuiz_scores_witness :
  ∃ a, attempts (finishQuiz 1700000000500 1700000000501
                   (in_session five_questions 4 five_answers None []))
       = [a] ∧ Attempt.score a = 2 ∧ Attempt.total a = 5.
Proof.
  destruct (finishQuiz_scores 1700000000500 1700000000501
              (in_session five_questions 4 five_answers None []))
    as (_ & _ & _ & _ & _ & _ & H).
  apply (H (sample_question 0 "A" 0.5) (sample_question 1 "B" 0.75)
           (sample_question 2 "C" 1) (sample_question 3 "D" 0.875)
           (sample_question 4 "A" 0.25) "C"); by vm_compute.
Defined.

(** ** Confirming an answer *)

Lemma at_index_Some (qs : list MCQ.t) (i : Z) :
  (0 ≤ i < Z.of_nat (length qs))%Z ↔ is_Some (at_index qs i).
Proof.
  unfold at_index. destruct (Z.leb_spec 0 i) as [Hi|Hi].
  - rewrite lookup_lt_is_Some. lia.
  - split; [lia|]. by intros [? ?].
Qed.

(** C10. With a pending answer, handleConfirmAnswer finds the current
    question and commits exactly when the index lies inside the active
    questions; outside (in particular in an empty session) nothing guards
    the read of the id of an undefined question, and it throws. *)
Theorem handleConfirmAnswer_precondition (s : AppState) (answer : string) :
  pendingAnswer s = Some answer → answer ≠ EmptyString →
  let qs := QuizState.questions (quizState s) in
  let i := QuizState.currentQuestionIndex (quizState s) in
  ((0 ≤ i < Z.of_nat (length qs))%Z →
     ∃ q s', qs !! Z.to_nat i = Some q ∧ handleConfirmAnswer s = inr s' ∧
             answers s' = <[MCQ.id q := answer]> (answers s) ∧
             pendingAnswer s' = None) ∧
  (¬ (0 ≤ i < Z.of_nat (length qs))%Z →
     handleConfirmAnswer s = inl (TypeError (undefined_property_message "id"))) ∧
  (qs = [] →
     handleConfirmAnswer s = inl (TypeError (undefined_property_message "id"))).
Proof.
  intros Hp Hne. cbv zeta.
  assert (is_empty answer = false) as He by (by destruct answer).
  unfold handleConfirmAnswer, currentQuestion. rewrite Hp, He.
  split_and!.
  - intros Hi. assert (Hi' := Hi). apply at_index_Some in Hi' as [q Hq]. rewrite Hq.
    exists q. eexists. split_and!; [|done..].
    unfold at_index in Hq. by destruct (0 <=? _)%Z.
  - intros Hi. destruct (at_index _ _) as [q|] eqn:Hq; [|done].
    destruct Hi. apply at_index_Some. by exists q.
  - intros ->. unfold at_index. by destruct (0 <=? _)%Z; rewrite ?lookup_nil.
Qed.

Lemma handleConfirmAnswer_precondition_witness :
  (∃ q s',
     five_questions !! 1 = Some q ∧
     handleConfirmAnswer (in_session five_questions 1 ∅ (Some "B") []) = inr s' ∧
     answers s' = <[MCQ.id q := "B"]> ∅ ∧ pendingAnswer s' = None) ∧
  handleConfirmAnswer (in_session five_questions 5 ∅ (Some "B") [])
  = inl (TypeError (undefined_property_message "id")).
Proof.
  split.
  - destruct (handleConfirmAnswer_precondition
                (in_session five_questions 1 ∅ (Some "B") []) "B") as (H & _ & _);
      [done|done|].
    apply H. simpl. lia.
  - destruct (handleConfirmAnswer_precondition
                (in_session five_questions 5 ∅ (Some "B") []) "B") as (_ & H & _);
      [done|done|].
    apply H. simpl. lia.
Defined.

Lemma ui_total (a : app) (e : event) (s : AppState) : ∃ s', ui a e s = inr s'.
Proof.
  destruct e; simpl; unfold on_quiz_screen; repeat case_match; eauto.
  (* Confirm: the button is rendered over a defined question *)
  all: unfold handleConfirmAnswer; repeat case_match; eauto; simplify_eq.
Qed.

(** What the Confirm button does to a state in which it is offered. *)
Lemma confirm_commits (a : app) (s s' : AppState) :
  ui a Confirm s = inr s' →
  (∃ q answer,
     currentQuestion s = Some q ∧
     pendingAnswer s = Some answer ∧ answer ≠ EmptyString ∧
     set_and_nonempty (answers s !! MCQ.id q) = false ∧
     answers s' = <[MCQ.id q := answer]> (answers s) ∧
     pendingAnswer s' = None) ∨
  s' = s.
Proof.
  simpl. unfold on_quiz_screen, confirm_offered, hasAnsweredCurrent.
  destruct (currentQuestion s) as [q|] eqn:Hq; [|by intros [= <-]; right].
  destruct (set_and_nonempty (pendingAnswer s)) eqn:Hp; simpl;
    [|by intros [= <-]; right].
  destruct (set_and_nonempty (_ !! _)) eqn:Ha; simpl; [by intros [= <-]; right|].
  unfold handleConfirmAnswer. rewrite Hq.
  destruct (pendingAnswer s) as [answer|]; [|done].
  simpl in Hp. destruct (is_empty answer) eqn:He; [done|].
  intros [= <-]. left. exists q, answer. split_and!; try done. by intros ->.
Qed.

(** One user action keeps every committed answer, or is one of the events
    that start a new session. *)
Lemma ui_keeps_answers (a : app) (e : event) (s s' : AppState) (k v : string) :
  ui a e s = inr s' →
  answers s !! k = Some v → v ≠ EmptyString →
  answers s' !! k = Some v ∨ recreates_session e = true.
Proof.
  intros Hstep Hk Hv.
  destruct e; try (by right);
    try (left; revert Hstep; simpl; unfold on_quiz_screen, goToNext, goToPrev,
           jumpToQuestion; repeat case_match; by intros [= <-]).
  apply confirm_commits in Hstep as [(q & answer & _ & _ & _ & Hq & -> & _)| ->];
    [|by left].
  left. rewrite lookup_insert_ne; [done|].
  intros <-. rewrite Hk in Hq. simpl in Hq. by destruct v.
Qed.

(** *** Uploads *)

Lemma upload_installs (a : app) (u : upload) (s : AppState) (r : ExtractionResult.t) :
  upload_result a u = Some r →
  let s' := handleFileUpload a u s in
  mode s' = QUIZ ∧ error s' = None ∧
  questions s' = ExtractionResult.questions r ∧
  quizName s' = ExtractionResult.title r ∧
  quizState s' = QuizState.fresh (ExtractionResult.questions r) ∧
  attempts s' = match a with LocalV3 => [] | Plain => attempts s end ∧
  pendingAnswer s' = pendingAnswer s.
Proof.
  unfold upload_result, handleFileUpload.
  destruct (is_pdf _); [|done].
  destruct (pdf_text u) as [e|text] eqn:Ht; [done|].
  destruct (extraction u) as [e|r'] eqn:Hr; [done|].
  destruct (unreadable a text) eqn:Hu; [done|].
  destruct (Nat.eqb _ 0) eqn:Hl; [done|]. intros [= ->].
  unfold try_catch, upload_try, mbind, action_bind, call, await, when_, raise.
  rewrite Ht, Hr, Hu, Hl. by destruct a.
Qed.

Lemma message_or_nonempty (fallback : string) (e : exn) :
  fallback ≠ EmptyString → message_or fallback e ≠ EmptyString.
Proof.
  unfold message_or. destruct (is_empty (message e)) eqn:E; [done|].
  intros _ H. by rewrite H in E.
Qed.

Ltac failed_upload :=
  intros _; simpl; split_and!; try done; eexists; (split; [done|]);
  try (by apply message_or_nonempty); done.

(** An upload that installs nothing leaves the quiz, the session, the ledger
    and the pending answer as they were and sets a message; past the file
    check it also returns to the upload screen. *)
Lemma upload_fails (a : app) (u : upload) (s : AppState) :
  upload_result a u = None →
  let s' := handleFileUpload a u s in
  questions s' = questions s ∧ quizName s' = quizName s ∧
  quizState s' = quizState s ∧ attempts s' = attempts s ∧
  pendingAnswer s' = pendingAnswer s ∧
  (∃ m, error s' = Some m ∧ m ≠ EmptyString) ∧
  (is_pdf (file_type u) = true → mode s' = UPLOAD).
Proof.
  unfold upload_result, handleFileUpload.
  destruct (is_pdf _).
  2:{ intros _. simpl. split_and!; try done. eexists. split; [done|]. by destruct a. }
  unfold try_catch, upload_try, upload_catch, mbind, action_bind, call, await,
    when_, raise.
  destruct (pdf_text u) as [e|text] eqn:Ht; [by destruct a; failed_upload|].
  destruct (unreadable a text) eqn:Hu; [by destruct a; failed_upload|].
  destruct (extraction u) as [e|r'] eqn:Hr; [by destruct a; failed_upload|].
  simpl. destruct (Nat.eqb _ 0) eqn:Hl; [by destruct a; failed_upload|done].
Qed.

Lemma ui_keeps_nonempty (a : app) (e : event) (s s' : AppState) :
  ui a e s = inr s' → answers_nonempty s → answers_nonempty s'.
Proof.
  intros Hstep Hs.
  assert (answers s' = ∅ → answers_nonempty s') as Hfresh.
  { intros E k v. by rewrite E, lookup_empty. }
  assert (answers s' = answers s → answers_nonempty s') as Hsame.
  { intros E k v. rewrite E. apply Hs. }
  destruct e;
    try (apply Hsame; revert Hstep; simpl; unfold on_quiz_screen, goToNext, goToPrev,
           jumpToQuestion; repeat case_match; by intros [= <-]).
  - (* an upload *)
    simpl in Hstep. injection Hstep as <-.
    destruct (upload_result a u) as [r|] eqn:Hu.
    + apply Hfresh. unfold answers.
      by rewrite (proj1 (proj2 (proj2 (proj2 (proj2 (upload_installs a u s r Hu)))))).
    + apply Hsame. unfold answers.
      by rewrite (proj1 (proj2 (proj2 (upload_fails a u s Hu)))).
  - (* Confirm *)
    apply confirm_commits in Hstep as [(q & answer & _ & _ & Hne & _ & E & _)| ->];
      [|done].
    intros k v. rewrite E. destruct (decide (MCQ.id q = k)) as [->|Hk].
    + rewrite lookup_insert_eq. by intros [= <-].
    + rewrite lookup_insert_ne by done. apply Hs.
  - (* a retake *)
    simpl in Hstep. injection Hstep as <-. unfold resetQuiz in *.
    repeat case_match; (by apply Hsame) || (by apply Hfresh).
  - (* the reset of everything *)
    simpl in Hstep. injection Hstep as <-. unfold clearAllData in *.
    case_match; (by apply Hsame) || (by apply Hfresh).
Qed.

Lemma run_total (a : app) (es : list event) (s : AppState) : ∃ s', run a es s = inr s'.
Proof.
  revert s. induction es as [|e es IH]; intros s; simpl; [by eexists|].
  destruct (ui_total a e s) as [s1 ->]. simpl. apply IH.
Qed.

(** An action that starts a new session leaves a session that is new: at
    its first question, with no answer committed, not finished. *)
Lemma ui_starts_session (a : app) (e : event) (s s' : AppState) :
  ui a e s = inr s' → starts_session a e s = true →
  quizState s' = QuizState.fresh (view s').
Proof.
  destruct e; try done; simpl.
  - destruct (upload_result a u) as [r|] eqn:Hu; [|done]. intros [= <-] _.
    unfold view. by rewrite (proj1 (proj2 (proj2 (proj2 (proj2 (upload_installs a u s r Hu)))))).
  - intros [= <-]. unfold resetQuiz. by destruct (Nat.eqb _ 0).
  - by intros [= <-] ->.
Qed.

(** Any other action keeps every committed answer. *)
Lemma ui_same_session (a : app) (e : event) (s s' : AppState) (k v : string) :
  ui a e s = inr s' → starts_session a e s = false →
  answers s !! k = Some v → v ≠ EmptyString → answers s' !! k = Some v.
Proof.
  intros Hstep Hsame Hk Hv.
  destruct (ui_keeps_answers a e s s' k v Hstep Hk Hv) as [?|Hr]; [done|].
  destruct e; try done; simpl in Hstep, Hsame; injection Hstep as <-.
  - destruct (upload_result a u) eqn:Hu; [done|]. unfold answers.
    by rewrite (proj1 (proj2 (proj2 (upload_fails a u s Hu)))).
  - unfold resetQuiz. apply negb_false_iff in Hsame. rewrite Hsame. by destruct a.
  - by rewrite Hsame.
Qed.

(** C6. When an answer is pending and the current question has none
    committed, the Confirm button (the only caller of handleConfirmAnswer)
    commits the pending answer under the id of the current question and
    clears it, leaving the questions, the position, the ledger and the
    screen as they were. In every other state (nothing pending, an empty
    pending text, no current question, or an answer already committed to
    the current question) it changes nothing. Every user action either
    starts a new session (an upload that installs a quiz, a retake that
    selects a question, the confirmed reset of everything), and then the
    session it leaves is a new one, or keeps every committed answer. So
    over any sequence of actions none of which starts a new session, an
    answer once committed stays as it is; committed answers are never
    empty, and no action throws. *)
Theorem answers_committed_once (a : app) :
  (∀ s q answer,
     currentQuestion s = Some q →
     pendingAnswer s = Some answer → answer ≠ EmptyString →
     set_and_nonempty (answers s !! MCQ.id q) = false →
     ∃ s', ui a Confirm s = inr s' ∧ handleConfirmAnswer s = inr s' ∧
       answers s' = <[MCQ.id q := answer]> (answers s) ∧
       pendingAnswer s' = None ∧
       view s' = view s ∧
       QuizState.currentQuestionIndex (quizState s') =
         QuizState.currentQuestionIndex (quizState s) ∧
       QuizState.isFinished (quizState s') = QuizState.isFinished (quizState s) ∧
       questions s' = questions s ∧ attempts s' = attempts s ∧ mode s' = mode s) ∧
  (∀ s,
     pendingAnswer s = None ∨ pendingAnswer s = Some EmptyString ∨
     currentQuestion s = None ∨
     (∃ q, currentQuestion s = Some q ∧
           set_and_nonempty (answers s !! MCQ.id q) = true) →
     ui a Confirm s = inr s) ∧
  (∀ e s, ∃ s', ui a e s = inr s' ∧
     if starts_session a e s then quizState s' = QuizState.fresh (view s')
     else ∀ k v, answers s !! k = Some v → v ≠ EmptyString → answers s' !! k = Some v) ∧
  (∀ es s, ∃ s', run a es s = inr s' ∧
     (answers_nonempty s → answers_nonempty s') ∧
     (same_session a es s = true →
      ∀ k v, answers s !! k = Some v → v ≠ EmptyString → answers s' !! k = Some v)).
Proof.
  split_and!.
  - intros s q answer Hq Hp Hne Hfree. eexists.
    simpl. unfold on_quiz_screen, confirm_offered, hasAnsweredCurrent, handleConfirmAnswer.
    rewrite Hq, Hp. simpl. fold (answers s). rewrite Hfree.
    destruct (is_empty answer) eqn:He; [by destruct answer|]. simpl.
    by split_and!.
  - intros s H. simpl.
    unfold on_quiz_screen, confirm_offered, hasAnsweredCurrent, handleConfirmAnswer.
    destruct (currentQuestion s) as [q|] eqn:Hq; [|done].
    destruct H as [->| [->| [?|(q' & [= <-] & Hans)]]]; try done.
    fold (answers s). rewrite Hans. by rewrite andb_false_r.
  - intros e s. destruct (ui_total a e s) as [s' Hs']. exists s'. split; [done|].
    destruct (starts_session a e s) eqn:E.
    + by eapply ui_starts_session.
    + intros k v. by eapply ui_same_session.
  - intros es. induction es as [|e es IH]; intros s.
    + exists s. by split_and!.
    + destruct (ui_total a e s) as [s1 H1].
      destruct (IH s1) as (s' & Hrun & Hne & Hkeep).
      exists s'. split_and!.
      * simpl. by rewrite H1.
      * intros Hs. eapply Hne, ui_keeps_nonempty; eauto.
      * simpl. rewrite H1. intros [He Hes]%andb_true_iff k v Hk Hv.
        apply Hkeep; [done| |done].
        apply negb_true_iff in He. by eapply ui_same_session.
Qed.

Lemma answers_committed_once_witness :
  (∃ s', ui Plain Confirm
           (in_session five_questions 1 (<[mcq_id 0 1700000000000 := "A"]> ∅) (Some "C") [])
         = inr s' ∧
         answers s' = <[mcq_id 1 1700000000000 := "C"]> (<[mcq_id 0 1700000000000 := "A"]> ∅) ∧
         pendingAnswer s' = None) ∧
  ui Plain Confirm
    (in_session five_questions 0 (<[mcq_id 0 1700000000000 := "A"]> ∅) (Some "B") [])
  = inr (in_session five_questions 0 (<[mcq_id 0 1700000000000 := "A"]> ∅) (Some "B") []) ∧
  (∃ s', run LocalV3 [Next 7 8; SelectOption 1; Confirm; Prev; SelectOption 2; Confirm]
           (in_session five_questions 0 (<[mcq_id 0 1700000000000 := "A"]> ∅) None [])
         = inr s' ∧
         answers s' !! mcq_id 0 1700000000000 = Some "A") ∧
  (∃ s', run LocalV3 [Retake RetakeIncorrect; ChooseFile picture_upload; ClearAll false;
                      Prev; SelectOption 2; Confirm] after_perfect_quiz
         = inr s' ∧
         answers s' !! mcq_id 4 1700000000000 = Some "A").
Proof.
  destruct (answers_committed_once Plain) as (Hcommit & Honly & _ & _).
  destruct (answers_committed_once LocalV3) as (_ & _ & _ & Hrun).
  split_and!.
  - destruct (Hcommit
                (in_session five_questions 1 (<[mcq_id 0 1700000000000 := "A"]> ∅) (Some "C") [])
                (sample_question 1 "B" 0.75) "C")
      as (s' & Hs' & _ & Ha & Hp & _); [reflexivity|reflexivity|discriminate|by vm_compute|].
    exists s'. by split_and!.
  - apply Honly. right. right. right. exists (sample_question 0 "A" 0.5).
    split; [reflexivity|by vm_compute].
  - destruct (Hrun [Next 7 8; SelectOption 1; Confirm; Prev; SelectOption 2; Confirm]
                (in_session five_questions 0 (<[mcq_id 0 1700000000000 := "A"]> ∅) None []))
      as (s' & Hs' & _ & Hkeep).
    exists s'. split; [exact Hs'|].
    apply Hkeep; [by vm_compute|by vm_compute|discriminate].
  - destruct (Hrun [Retake RetakeIncorrect; ChooseFile picture_upload; ClearAll false;
                    Prev; SelectOption 2; Confirm] after_perfect_quiz)
      as (s' & Hs' & _ & Hkeep).
    exists s'. split; [exact Hs'|].
    apply Hkeep; [by vm_compute|by vm_compute|discriminate].
Defined.

(** ** Retakes *)

Lemma not_answered_correctly_spec (committed : gmap string string) (q : MCQ.t) :
  not_answered_correctly committed q = unanswered_or_wrong committed q.
Proof.
  unfold not_answered_correctly, answered_correctly, unanswered_or_wrong.
  destruct (committed !! MCQ.id q) as [v|]; [|done].
  case_bool_decide as E; destruct (String.eqb_spec v (MCQ.correctAnswer q)); simplify_eq/=; done.
Qed.

Lemma filter_ext_bool {A} (f g : A → bool) (l : list A) :
  (∀ x, f x = g x) → List.filter f l = List.filter g l.
Proof. intros E. induction l as [|x l IH]; simpl; [done|]. by rewrite E, IH. Qed.

Lemma filter_sublist {A} (f : A → bool) (l : list A) : sublist (List.filter f l) l.
Proof.
  induction l as [|x l IH]; simpl; [done|].
  destruct (f x); by constructor.
Qed.

Lemma length_zero_nil {A} (l : list A) : Nat.eqb (length l) 0 = true ↔ l = [].
Proof. by destruct l. Qed.

(** C4, as the code has it. Mode all keeps the master sequence; mode
    incorrect keeps exactly the records that are unanswered or answered
    differently from correctAnswer; mode low-confidence, which the first
    revision alone accepts, keeps exactly the records with confidence below
    0.8. A non-empty selection starts a new session over it. An empty one
    starts nothing: quiz, session, pending answer, ledger and screen stay as
    they were, and the first revision sets a message. *)
Theorem retake_filter (a : app) (f : retake) (s : AppState) :
  retake_questions a RetakeAll s = questions s ∧
  retake_questions a RetakeIncorrect s
    = List.filter (unanswered_or_wrong (answers s)) (questions s) ∧
  (∀ q, q ∈ retake_questions LocalV3 RetakeLowConfidence s ↔
        q ∈ questions s ∧ PrimFloat.ltb (MCQ.confidence q) 0x1.999999999999ap-1 = true) ∧
  sublist (retake_questions a f s) (questions s) ∧
  (retake_questions a f s ≠ [] →
     quizState (resetQuiz a f s) = QuizState.fresh (retake_questions a f s) ∧
     pendingAnswer (resetQuiz a f s) = None ∧ mode (resetQuiz a f s) = QUIZ) ∧
  (retake_questions a f s = [] →
     quizState (resetQuiz a f s) = quizState s ∧
     questions (resetQuiz a f s) = questions s ∧
     pendingAnswer (resetQuiz a f s) = pendingAnswer s ∧
     attempts (resetQuiz a f s) = attempts s ∧
     mode (resetQuiz a f s) = mode s ∧
     (a = LocalV3 → error (resetQuiz a f s) = Some no_match_message)).
Proof.
  split_and!.
  - by destruct a.
  - simpl. apply filter_ext_bool, not_answered_correctly_spec.
  - intros q. simpl. rewrite list_elem_of_In, filter_In, <-list_elem_of_In. done.
  - destruct f, a; simpl; try done; apply filter_sublist.
  - intros Hne. unfold resetQuiz.
    destruct (Nat.eqb _ 0) eqn:E; [by apply length_zero_nil in E|done].
  - intros Hnil. unfold resetQuiz. rewrite Hnil. simpl. by destruct a.
Qed.

Lemma retake_filter_witness :
  error (resetQuiz LocalV3 RetakeIncorrect after_perfect_quiz) = Some no_match_message ∧
  quizState (resetQuiz LocalV3 RetakeIncorrect after_perfect_quiz)
  = quizState after_perfect_quiz ∧
  quizState (resetQuiz Plain RetakeAll after_perfect_quiz)
  = QuizState.fresh five_questions.
Proof.
  destruct (retake_filter LocalV3 RetakeIncorrect after_perfect_quiz)
    as (_ & _ & _ & _ & _ & Hempty).
  destruct (retake_filter Plain RetakeAll after_perfect_quiz)
    as (_ & _ & _ & _ & Hstart & _).
  destruct Hempty as (Hq & _ & _ & _ & _ & He); [by vm_compute|].
  destruct Hstart as (Hs & _); [by vm_compute|].
  split_and!; [by apply He|exact Hq|exact Hs].
Defined.

(** Against C4 as stated: the second revision returns without a word when
    the selection is empty:
    after a quiz answered correctly throughout, retaking the incorrect
    questions changes nothing, and no message is set. *)
Lemma retake_empty_silent :
  retake_questions Plain RetakeIncorrect after_perfect_quiz = [] ∧
  ui Plain (Retake RetakeIncorrect) after_perfect_quiz = inr after_perfect_quiz ∧
  error after_perfect_quiz = None.
Proof. by vm_compute. Qed.

(** ** The ledger of attempts *)

Lemma ui_attempts (a : app) (e : event) (s s' : AppState) :
  ui a e s = inr s' →
  attempts s' = attempts s ∨
  (∃ now_id now_stamp : Z,
     attempts s' = Attempt.mk ("attempt-" +:+ pretty now_id) now_stamp
                     (matching (answers s) (QuizState.questions (quizState s)))
                     (length (QuizState.questions (quizState s)))
                   :: attempts s) ∨
  (e = ClearAll true ∧ attempts s' = [] ∧ questions s' = [] ∧
   quizState s' = QuizState.fresh []) ∨
  (a = LocalV3 ∧ ∃ u r, e = ChooseFile u ∧ upload_result a u = Some r ∧
   attempts s' = [] ∧ questions s' = ExtractionResult.questions r ∧
   quizState s' = QuizState.fresh (ExtractionResult.questions r)).
Proof.
  intros Hstep.
  destruct e;
    try (left; revert Hstep; simpl;
         unfold on_quiz_screen, goToPrev, jumpToQuestion, resetQuiz, handleConfirmAnswer;
         repeat case_match; by intros [= <-]).
  - (* an upload *)
    simpl in Hstep. injection Hstep as <-.
    destruct (upload_result a u) as [r|] eqn:Hu.
    + destruct (upload_installs a u s r Hu) as (_ & _ & Hq & _ & Hs & Ha & _).
      destruct a; [|by left].
      right; right; right. split; [done|]. by exists u, r.
    + left. apply (upload_fails a u s Hu).
  - (* Next *)
    revert Hstep. simpl. unfold on_quiz_screen, goToNext.
    repeat case_match; intros [= <-]; try (by left).
    right; left. exists now_id, now_stamp. simpl. by rewrite correctCount_matching.
  - (* Finish *)
    revert Hstep. simpl. unfold on_quiz_screen.
    repeat case_match; intros [= <-]; try (by left).
    right; left. exists now_id, now_stamp. simpl. by rewrite correctCount_matching.
  - (* the reset of everything *)
    simpl in Hstep. injection Hstep as <-. destruct confirmed; [|by left].
    right; right; left. done.
Qed.

(** C8, as the code has it. A user action leaves the ledger as it is, or
    puts one new attempt in front of it (finishing a quiz), or empties it;
    it is emptied by the confirmed reset of everything, which clears the
    quiz and the session with it, and in the first revision also by a
    successful upload, which replaces the quiz and the session with it. In
    the second revision no upload touches the ledger, and in both a failed
    upload leaves it alone. Nothing ever changes or removes a single
    attempt. *)
Theorem ledger_append_only (a : app) (e : event) (s : AppState) :
  ∃ s', ui a e s = inr s' ∧
    (attempts s' = attempts s ∨
     (∃ new, attempts s' = new :: attempts s) ∨
     (attempts s' = [] ∧
      ((e = ClearAll true ∧ questions s' = [] ∧ quizState s' = QuizState.fresh []) ∨
       (a = LocalV3 ∧ ∃ u r, e = ChooseFile u ∧ upload_result a u = Some r ∧
        questions s' = ExtractionResult.questions r ∧
        quizState s' = QuizState.fresh (ExtractionResult.questions r))))) ∧
    (∀ u, e = ChooseFile u → a = Plain ∨ upload_result a u = None →
          attempts s' = attempts s).
Proof.
  destruct (ui_total a e s) as [s' Hs']. exists s'. split; [done|]. split.
  - destruct (ui_attempts a e s s' Hs')
      as [?|[(t1 & t2 & ?)|[(? & ? & ? & ?)|(? & u & r & ? & ? & ? & ? & ?)]]].
    + by left.
    + right; left. by eexists.
    + right; right. split; [done|]. by left.
    + right; right. split; [done|]. right. split; [done|]. by exists u, r.
  - intros u -> Hu. simpl in Hs'. injection Hs' as <-.
    destruct (upload_result a u) as [r|] eqn:Hr.
    + destruct Hu as [->|?]; [|done].
      by destruct (upload_installs Plain u s r Hr) as (_ & _ & _ & _ & _ & ? & _).
    + apply (upload_fails a u s Hr).
Qed.

Lemma ledger_append_only_witness :
  attempts (handleFileUpload Plain sample_upload after_perfect_quiz)
  = attempts after_perfect_quiz.
Proof.
  destruct (ledger_append_only Plain (ChooseFile sample_upload) after_perfect_quiz)
    as (s' & Hs' & _ & H).
  simpl in Hs'. injection Hs' as <-.
  apply (H sample_upload); [reflexivity|by left].
Defined.

(** Against C8 as stated: in the first revision a successful upload empties
    the ledger. *)
Lemma upload_clears_ledger :
  upload_result LocalV3 sample_upload = Some (ExtractionResult.mk "Letters" [sample_question 0 "A" 1]) ∧
  attempts after_perfect_quiz = [Attempt.mk "attempt-1700000000500" 1700000000501 5 5] ∧
  ui LocalV3 (ChooseFile sample_upload) after_perfect_quiz
  = inr (handleFileUpload LocalV3 sample_upload after_perfect_quiz) ∧
  attempts (handleFileUpload LocalV3 sample_upload after_perfect_quiz) = [].
Proof. by vm_compute. Qed.

(** ** Failures of the extraction *)

Lemma failure_message_inj (f g : failure) :
  failure_message f = failure_message g → f = g.
Proof. by destruct f, g. Qed.

Section ExtractionFailures.

Variable JSON_parse : string → string + json.
Variable now : nat → Z.

(** The first revision, on a reply of the backend: how it fails. *)
Lemma strict_failure (text : option string) (e : exn) :
  Gemini.extractMCQsFromText JSON_parse now Gemini.Strict (Gemini.Replied text) = inl e →
  (e = Error (failure_message EmptyResponse) ∧
   (text = None ∨ text = Some EmptyString)) ∨
  (e = Error (failure_message MalformedOutput) ∧
   ∃ t m, text = Some t ∧ t ≠ EmptyString ∧
          JSON_parse (Gemini.cleaned Gemini.Strict t) = inl m) ∨
  (e = Error (failure_message SchemaViolation) ∧
   ∃ t data, text = Some t ∧ t ≠ EmptyString ∧
             JSON_parse (Gemini.cleaned Gemini.Strict t) = inr data ∧
             data ≠ JNull ∧ ∀ l, prop "questions" data ≠ Some (JArr l)) ∨
  (e = TypeError (null_property_message "questions") ∧
   ∃ t, text = Some t ∧ t ≠ EmptyString ∧
        JSON_parse (Gemini.cleaned Gemini.Strict t) = inr JNull).
Proof.
  unfold Gemini.extractMCQsFromText, Gemini.settle, Gemini.try_block.
  destruct text as [[|c t]|]; simpl; [intros [= <-]; left; eauto| |intros [= <-]; left; eauto].
  unfold Gemini.decode, parse.
  destruct (JSON_parse _) as [m|data] eqn:Hparse; simpl.
  { intros [= <-]. right; left. split; [done|]. by exists (String c t), m. }
  destruct (Gemini.questions_of _ data) as [e'|l] eqn:Hq; simpl; [|done].
  apply questions_of_inl in Hq as [[-> ->]|(Hnull & Hq & ->)]; simpl; intros [= <-].
  - right; right; right. split; [done|]. by exists (String c t).
  - right; right; left. split; [done|]. by exists (String c t), data.
Qed.

(** The second revision has one message for every failure. *)
Lemma augmented_failure (b : Gemini.reply) (e : exn) :
  Gemini.extractMCQsFromText JSON_parse now Gemini.Augmented b = inl e →
  e = Error Gemini.conversion_failure_message.
Proof.
  unfold Gemini.extractMCQsFromText, Gemini.settle.
  destruct (Gemini.try_block _ _ _ _); simpl; by intros [= <-].
Qed.

End ExtractionFailures.

(** C2, as the code has it. In the first revision a reply of the backend
    that does not parse to null fails in exactly one of three ways, told
    apart by their messages: no content, content that does not parse, and a
    parsed value whose questions property is not an array. The second
    revision reports every failure with one and the same message. In both
    revisions of the component a failed extraction returns to the upload
    screen with a non-empty message and leaves the quiz, the session, the
    ledger and the pending answer as they were. *)
Theorem extraction_failures (JSON_parse : string → string + json) (now : nat → Z) :
  (∀ text e,
     Gemini.extractMCQsFromText JSON_parse now Gemini.Strict (Gemini.Replied text) = inl e →
     (∀ t, text = Some t → JSON_parse (Gemini.cleaned Gemini.Strict t) ≠ inr JNull) →
     (∃ f, e = Error (failure_message f) ∧ ∀ g, message e = failure_message g → g = f) ∧
     (e = Error (failure_message EmptyResponse) ↔ text = None ∨ text = Some EmptyString) ∧
     (e = Error (failure_message MalformedOutput) ↔
        ∃ t m, text = Some t ∧ t ≠ EmptyString ∧
               JSON_parse (Gemini.cleaned Gemini.Strict t) = inl m) ∧
     (e = Error (failure_message SchemaViolation) ↔
        ∃ t data, text = Some t ∧ t ≠ EmptyString ∧
                  JSON_parse (Gemini.cleaned Gemini.Strict t) = inr data ∧
                  ∀ l, prop "questions" data ≠ Some (JArr l))) ∧
  (∀ b e,
     Gemini.extractMCQsFromText JSON_parse now Gemini.Augmented b = inl e →
     e = Error Gemini.conversion_failure_message) ∧
  (∀ a u s e,
     is_pdf (file_type u) = true →
     (∃ text, pdf_text u = inr text ∧ unreadable a text = false) →
     extraction u = inl e →
     let s' := handleFileUpload a u s in
     mode s' = UPLOAD ∧
     error s' = Some (message_or (failure_fallback a) e) ∧
     message_or (failure_fallback a) e ≠ EmptyString ∧
     questions s' = questions s ∧ quizName s' = quizName s ∧
     quizState s' = quizState s ∧ attempts s' = attempts s ∧
     pendingAnswer s' = pendingAnswer s).
Proof.
  split_and!.
  - intros text e He Hnull.
    apply strict_failure in He
      as [[-> Ht]|[(-> & t & m & -> & Ht & Hm)|[(-> & t & d & -> & Ht & Hd & _ & Hq)
         |(-> & t & -> & _ & Hd)]]].
    + split_and!.
      * exists EmptyResponse. split; [done|]. intros g Hg. by apply failure_message_inj.
      * done.
      * split; [done|]. intros (t & m & -> & ? & _). by destruct Ht as [|[= ->]].
      * split; [done|]. intros (t & d & -> & ? & _). by destruct Ht as [|[= ->]].
    + split_and!.
      * exists MalformedOutput. split; [done|]. intros g Hg. by apply failure_message_inj.
      * split; [done|]. by intros [|[= ->]].
      * split; [|done]. intros _. by exists t, m.
      * split; [done|]. intros (t' & d & [= <-] & _ & Hd & _). congruence.
    + split_and!.
      * exists SchemaViolation. split; [done|]. intros g Hg. by apply failure_message_inj.
      * split; [done|]. by intros [|[= ->]].
      * split; [done|]. intros (t' & m & [= <-] & _ & Hm). congruence.
      * split; [|done]. intros _. by exists t, d.
    + by destruct (Hnull t).
  - apply augmented_failure.
  - intros a u s e Hpdf (text & Ht & Hu) He. cbv zeta.
    unfold handleFileUpload. rewrite Hpdf.
    unfold try_catch, upload_try, upload_catch, mbind, action_bind, call, await,
      when_, raise.
    rewrite Ht, Hu, He.
    split_and!; try (by destruct a). apply message_or_nonempty. by destruct a.
Qed.

Lemma extraction_failures_witness :
  ∃ e, Gemini.extractMCQsFromText Reader.JSON_parse (λ _, 1700000000000%Z) Gemini.Strict
         (Gemini.Replied (Some "{}")) = inl e ∧
       e = Error (failure_message SchemaViolation).
Proof.
  exists (Error (failure_message SchemaViolation)). split; [by vm_compute|].
  destruct (extraction_failures Reader.JSON_parse (λ _, 1700000000000%Z)) as (H & _ & _).
  destruct (H (Some "{}") (Error (failure_message SchemaViolation))) as (_ & _ & _ & Hs).
  - by vm_compute.
  - intros t [= <-]. by vm_compute.
  - apply Hs. exists "{}", (JObj ∅). split_and!; [done|done|by vm_compute|].
    intros l. by vm_compute.
Defined.

(** Against C2 as stated: the second revision gives a missing reply and a
    reply without questions the same error, and the first revision answers the reply null with an
    error that carries none of the three messages. *)
Lemma failures_not_told_apart :
  Gemini.extractMCQsFromText Reader.JSON_parse (λ _, 0%Z) Gemini.Augmented
    (Gemini.Replied None)
  = Gemini.extractMCQsFromText Reader.JSON_parse (λ _, 0%Z) Gemini.Augmented
      (Gemini.Replied (Some "{}")) ∧
  Gemini.extractMCQsFromText Reader.JSON_parse (λ _, 0%Z) Gemini.Augmented
    (Gemini.Replied None) = inl (Error Gemini.conversion_failure_message) ∧
  Gemini.extractMCQsFromText Reader.JSON_parse (λ _, 0%Z) Gemini.Strict
    (Gemini.Replied (Some "null"))
  = inl (TypeError (null_property_message "questions")) ∧
  (∀ f, null_property_message "questions" ≠ failure_message f).
Proof. split_and!; try (by vm_compute). by intros []. Qed.

(** ** The fenced reply *)

Lemma is_empty_append (x y : string) : is_empty (x +:+ y) = is_empty x && is_empty y.
Proof. by destruct x. Qed.

(** C3, as the code has it. The first revision trims the reply and, when
    what is left starts with a fence, removes the opening fence (with the
    word json and a line feed when they follow) and the closing fence (with
    the line feed before it) before JSON.parse runs: a reply that wraps a
    body in such a fence, with any blank space around it, is decoded as the
    body alone. The second revision only trims. In the first revision the
    fenced one-question reply of the scenario yields
    the title T and one record whose id is the one built for position 0 and
    whose pageNumber is 1. *)
Theorem fenced_reply_decoded (now : nat → Z) :
  (∀ JSON_parse tag ws1 ws2 body,
     tag = "json" ∨ tag = EmptyString →
     all_white ws1 = true → all_white ws2 = true →
     let reply := ws1 +:+ fence +:+ tag +:+ nl +:+ body +:+ nl +:+ fence +:+ ws2 in
     Gemini.cleaned Gemini.Strict reply = body ∧
     Gemini.extractMCQsFromText JSON_parse now Gemini.Strict (Gemini.Replied (Some reply))
     = Gemini.settle Gemini.Strict (Gemini.decode JSON_parse now Gemini.Strict body)) ∧
  (∀ text,
     startsWith (trim text) fence = false →
     Gemini.cleaned Gemini.Strict text = trim text) ∧
  (∀ text, Gemini.cleaned Gemini.Augmented text = trim text) ∧
  (∃ q, Gemini.extractMCQsFromText Reader.JSON_parse now Gemini.Strict
          (Gemini.Replied (Some scenario_reply))
        = inr (Gemini.Extracted (JStr "T") [q]) ∧
        prop "id" q = Some (JStr (mcq_id 0 (now 0))) ∧
        prop "pageNumber" q = Some (JNum 1) ∧
        prop "question" q = Some (JStr "Q1") ∧
        prop "correctAnswer" q = Some (JStr "B")).
Proof.
  split_and!.
  - intros JSON_parse tag ws1 ws2 body Htag Hws1 Hws2. cbv zeta.
    pose proof (cleaned_fenced tag ws1 ws2 body Htag Hws1 Hws2) as Hclean.
    split; [done|].
    unfold Gemini.extractMCQsFromText, Gemini.try_block, Gemini.response_text.
    assert (is_empty (ws1 +:+ fence +:+ tag +:+ nl +:+ body +:+ nl +:+ fence +:+ ws2)
            = false) as ->.
    { rewrite !is_empty_append. by destruct (is_empty ws1). }
    unfold mret, result_ret, mbind, result_bind. by rewrite Hclean.
  - intros text Hstart. unfold Gemini.cleaned. by rewrite Hstart.
  - done.
  - eexists. split; [by vm_compute|]. by vm_compute.
Qed.

Lemma fenced_reply_decoded_witness :
  Gemini.cleaned Gemini.Strict
    (nl +:+ " " +:+ fence +:+ "json" +:+ nl +:+ scenario_body +:+ nl +:+ fence +:+ nl)
  = scenario_body.
Proof.
  destruct (fenced_reply_decoded (λ _, 0%Z)) as (H & _ & _ & _).
  apply (H Reader.JSON_parse "json" (nl +:+ " ") nl scenario_body); [by left|done|done].
Defined.

(** Against C3 as stated: the second revision does not remove the fence and
    rejects the fenced reply of the scenario. *)
Lemma fenced_reply_rejected :
  Gemini.extractMCQsFromText Reader.JSON_parse (λ _, 1700000000000%Z) Gemini.Augmented
    (Gemini.Replied (Some scenario_reply))
  = inl (Error Gemini.conversion_failure_message).
Proof. by vm_compute. Qed.

(** ** Ids over the life of a quiz *)

Lemma edit_fields_keep_id (a : app) (q : MCQ.t) (e : edit) (updated : Partial.t) :
  edit_fields a q e = Some updated → Partial.id updated = None.
Proof.
  destruct e; simpl; repeat case_match; try done; try (by intros [= <-]).
  destruct (MCQ.options q !! choice); simpl; [by intros [= <-]|done].
Qed.

Lemma merge_matching_id (id : string) (updated : Partial.t) (q : MCQ.t) :
  Partial.id updated = None → MCQ.id (merge_matching id updated q) = MCQ.id q.
Proof. intros H. unfold merge_matching, merge. case_match; simpl; by rewrite ?H. Qed.

Lemma ui_keeps_ids (a : app) (e : event) (s s' : AppState) :
  ui a e s = inr s' → replaces_quiz e = false →
  MCQ.id <$> questions s' = MCQ.id <$> questions s.
Proof.
  intros Hstep He.
  destruct e; try done;
    try (revert Hstep; simpl;
         unfold on_quiz_screen, goToNext, goToPrev, jumpToQuestion, resetQuiz,
           handleConfirmAnswer;
         repeat case_match; by intros [= <-]).
  revert Hstep. simpl.
  destruct (questions s !! shown) as [q|]; [|by intros [= <-]].
  destruct (edit_fields a q e) as [updated|] eqn:Hu; [|by intros [= <-]].
  intros [= <-]. simpl. rewrite <-list_fmap_compose.
  apply list_fmap_ext. intros i x _. simpl.
  eapply merge_matching_id, edit_fields_keep_id, Hu.
Qed.

(** C5, as the code has it. The ids of one successful call are pairwise
    distinct; the id at each position is built from the position and the
    clock, whatever id the reply carried; no user action other than an
    upload or the reset of everything changes the id of a question; and two
    calls share no id provided their clocks differ position by position. *)
Theorem assigned_ids (JSON_parse : string → string + json) (now : nat → Z) :
  (∀ r b x,
     Gemini.extractMCQsFromText JSON_parse now r b = inr x →
     NoDup (ids x) ∧
     ∀ i q, Gemini.questions x !! i = Some q →
            prop "id" q = Some (JStr (mcq_id i (now i)))) ∧
  (∀ i q, prop "id" (Gemini.with_id now i q) = Some (JStr (mcq_id i (now i)))) ∧
  (∀ a es s s',
     run a es s = inr s' → Forall (λ e, replaces_quiz e = false) es →
     MCQ.id <$> questions s' = MCQ.id <$> questions s) ∧
  (∀ parse' now' r r' b b' x x',
     (∀ i, now i ≠ now' i) →
     Gemini.extractMCQsFromText JSON_parse now r b = inr x →
     Gemini.extractMCQsFromText parse' now' r' b' = inr x' →
     ∀ id, id ∈ ids x → id ∉ ids x').
Proof.
  split_and!.
  - intros r b x Hx. split; [by eapply extract_ids_NoDup|].
    intros i q. by eapply extract_id_at.
  - apply prop_id_with_id.
  - intros a es. induction es as [|e es IH]; intros s s'; simpl.
    + by intros [= <-].
    + destruct (ui a e s) as [?|s1] eqn:H1; simpl; [done|].
      intros Hrun [He Hes]%Forall_cons.
      rewrite (IH s1 s' Hrun Hes). by eapply ui_keeps_ids.
  - intros parse' now' r r' b b' x x' Hclock Hx Hx' id. by eapply extract_ids_disjoint.
Qed.

Lemma assigned_ids_witness :
  ∃ x, Gemini.extractMCQsFromText Reader.JSON_parse (λ _, 1700000000000%Z)
         Gemini.Strict (Gemini.Replied (Some two_question_reply)) = inr x ∧
       ids x = [Some (JStr "q-0-1700000000000"); Some (JStr "q-1-1700000000000")] ∧
       NoDup (ids x).
Proof.
  destruct (assigned_ids Reader.JSON_parse (λ _, 1700000000000%Z)) as (H & _ & _ & _).
  eexists. split; [by vm_compute|]. split; [by vm_compute|].
  eapply (H Gemini.Strict (Gemini.Replied (Some two_question_reply))). by vm_compute.
Defined.

(** Against C5 as stated: two calls that read the same clock value give
    their first records the same id. *)
Lemma ids_reused_across_calls :
  ∃ x x',
    Gemini.extractMCQsFromText Reader.JSON_parse (λ _, 1700000000000%Z) Gemini.Strict
      (Gemini.Replied (Some scenario_reply)) = inr x ∧
    Gemini.extractMCQsFromText Reader.JSON_parse (λ _, 1700000000000%Z) Gemini.Strict
      (Gemini.Replied (Some other_reply)) = inr x' ∧
    Gemini.title x ≠ Gemini.title x' ∧
    ids x = [Some (JStr "q-0-1700000000000")] ∧
    ids x' = [Some (JStr "q-0-1700000000000")].
Proof. eexists _, _. split_and!; by vm_compute. Qed.

(** ** The correct answer and the options *)









(** ** Startup *)

(** C9, where the code departs from it. A stored quiz that does not
    parse is logged and skipped, but a stored history that does not parse
    is read outside any try block: the SyntaxError leaves the initializer
    and the first render throws. *)
Theorem corrupt_history_is_fatal (a : app) (prefers_dark : bool) :
  Startup.startup Reader.JSON_parse a prefers_dark {[Startup.HISTORY_KEY a := "{"]}
  = inl (SyntaxError Reader.syntax_message) ∧
  Startup.startup Reader.JSON_parse a prefers_dark {[Startup.STORAGE_KEY a := "{"]}
  = inr (Startup.Boot (JBool prefers_dark) (JArr [])
           (Startup.Unreadable (Startup.load_failure_label a))).
Proof. by destruct a; vm_compute. Qed.
